(** * ejercicio1: the cleaning, filtering and aggregation pipeline of [d1.py]

    A shallow embedding of the data pipeline of the dashboard script:
    [extract_coords], the body of [load_data], the two row filters
    ([df_mapa], [df_filtered]), the per-location mean ([df_geo]) and the
    module-level guard around the dashboard.

    Data model.
    - Text is [string], read as ASCII: the digit class of the regular
      expression is '0'..'9'.
    - A Python [float] is a binary64 number, [float64] below: the
      inductive description [spec_float] of the Standard Library, with
      the operations at precision 53 and maximal exponent 1024 (round to
      nearest, ties to even).  A missing numeric cell is the NaN.
    - The value of a decimal literal is the binary64 number nearest to
      it, which is what [float()] returns; the number parser of pandas
      returns the same number for a literal of at most 15 significant
      digits and a decimal exponent of at most 22 in magnitude.
    - A column of a frame is either numeric (dtype float64) or an object
      column whose cells are strings or the missing marker.  These are
      the columns the CSV reader produces, where a column that holds
      text has the dtype object, which is what the guard of the cleaning
      loop tests.
    - A frame is the list of its named columns, in column order; its
      rows are identified by their position.
    - The script is a computation that records its calls to the page and
      ends with a value or with the exception that stopped it. *)

From Stdlib Require Import List String Ascii Bool Arith ZArith NArith Lia.
From Stdlib Require Import Permutation Sorted OrderedTypeEx.
From Stdlib Require Import Floats.
Import ListNotations.

Set Warnings "-inexact-float".

Local Open Scope string_scope.
Local Open Scope list_scope.
Local Open Scope nat_scope.

(* ------------------------------------------------------------------ *)
(** ** Binary64 numbers *)

Module F64.

Definition prec : Z := 53.
Definition emax : Z := 1024.

Definition t := spec_float.

Definition nan : t := S754_nan.
Definition zero : t := S754_zero false.

Definition add : t -> t -> t := SFadd prec emax.
Definition sub : t -> t -> t := SFsub prec emax.
Definition div : t -> t -> t := SFdiv prec emax.

(** [x != x] *)
Definition is_nan (x : t) : bool :=
  match x with S754_nan => true | _ => false end.

(** The float of a non-negative count. *)
Definition of_nat (n : nat) : t :=
  binary_normalize prec emax (Z.of_nat n) 0 false.

(** The binary64 number nearest to [(-1)^neg * m * 10^e]: the value of
    a decimal literal. *)
Definition of_decimal (neg : bool) (m : N) (e : Z) : t :=
  match m with
  | N0 => S754_zero neg
  | Npos p =>
      if (0 <=? e)%Z
      then binary_round prec emax neg (p * Z.to_pos (10 ^ e)) 0
      else SFdiv prec emax (S754_finite neg p 0)
                           (S754_finite false (Z.to_pos (10 ^ (- e))) 0)
  end.

(** A float written as a literal of the prover. *)
Definition lit (x : PrimFloat.float) : t := Prim2SF x.

End F64.

Abbreviation float64 := F64.t.

(* ------------------------------------------------------------------ *)
(** ** Characters and strings *)

Definition is_digit (c : ascii) : bool :=
  (48 <=? nat_of_ascii c) && (nat_of_ascii c <=? 57).

Definition is_sign (c : ascii) : bool :=
  Ascii.eqb c "+" || Ascii.eqb c "-".

(** [str.isspace] on ASCII: tab to carriage return, the four separators
    28..31 and the blank. *)
Definition is_space (c : ascii) : bool :=
  let n := nat_of_ascii c in
  ((9 <=? n) && (n <=? 13)) || ((28 <=? n) && (n <=? 32)).

(** The C locale's [isspace], used by the numeric parser of pandas. *)
Definition is_space_c (c : ascii) : bool :=
  let n := nat_of_ascii c in
  ((9 <=? n) && (n <=? 13)) || (n =? 32).

Definition lower (c : ascii) : ascii :=
  let n := nat_of_ascii c in
  if (65 <=? n) && (n <=? 90) then ascii_of_nat (n + 32) else c.

Fixpoint lowercase (s : string) : string :=
  match s with
  | EmptyString => EmptyString
  | String c s' => String (lower c) (lowercase s')
  end.

(** The longest prefix of [s] whose characters satisfy [p], and the rest. *)
Fixpoint span (p : ascii -> bool) (s : string) : string * string :=
  match s with
  | EmptyString => (EmptyString, EmptyString)
  | String c s' =>
      if p c then let (a, b) := span p s' in (String c a, b)
      else (EmptyString, s)
  end.

Definition drop_while (p : ascii -> bool) (s : string) : string :=
  snd (span p s).

Fixpoint all_chars (p : ascii -> bool) (s : string) : bool :=
  match s with
  | EmptyString => true
  | String c s' => p c && all_chars p s'
  end.

Fixpoint count_char (a : ascii) (s : string) : nat :=
  match s with
  | EmptyString => 0
  | String c s' => (if Ascii.eqb c a then 1 else 0) + count_char a s'
  end.

(** [s.strip()] *)
Fixpoint rstrip (s : string) : string :=
  match s with
  | EmptyString => EmptyString
  | String c s' =>
      match rstrip s' with
      | EmptyString => if is_space c then EmptyString else String c EmptyString
      | r => String c r
      end
  end.

Definition strip (s : string) : string := rstrip (drop_while is_space s).

(** [s.replace(a, b)] for single characters. *)
Fixpoint replace_char (a b : ascii) (s : string) : string :=
  match s with
  | EmptyString => EmptyString
  | String c s' =>
      String (if Ascii.eqb c a then b else c) (replace_char a b s')
  end.

(** The number written by a string of decimal digits, most significant
    digit first, continuing from [acc]. *)
Fixpoint digits_value (acc : N) (s : string) : N :=
  match s with
  | EmptyString => acc
  | String c s' => digits_value (10 * acc + (N_of_ascii c - 48)) s'
  end.

(* ------------------------------------------------------------------ *)
(** ** Decimal literals

    The grammar shared by Python's [float()] and by the number parser
    behind [pd.to_numeric]: an optional sign, digits with an optional
    point (at least one digit in all), and an optional exponent, which is
    read only when a digit follows it.  [read_number] returns the value
    and the unread rest of the text. *)

Definition read_sign (s : string) : bool * string :=
  match s with
  | String c s' =>
      if Ascii.eqb c "-" then (true, s')
      else if Ascii.eqb c "+" then (false, s')
      else (false, s)
  | EmptyString => (false, s)
  end.

Definition read_point (s : string) : string * string :=
  match s with
  | String c s' => if Ascii.eqb c "." then span is_digit s' else (EmptyString, s)
  | EmptyString => (EmptyString, s)
  end.

Definition read_exponent (s : string) : Z * string :=
  match s with
  | String c s' =>
      if Ascii.eqb (lower c) "e" then
        let (neg, s1) := read_sign s' in
        let (ds, s2) := span is_digit s1 in
        match ds with
        | EmptyString => (0%Z, s)
        | _ => let n := Z.of_N (digits_value 0 ds) in
               ((if neg then - n else n)%Z, s2)
        end
      else (0%Z, s)
  | EmptyString => (0%Z, s)
  end.

Definition read_number (s : string) : option (float64 * string) :=
  let (neg, s1) := read_sign s in
  let (ip, s2) := span is_digit s1 in
  let (fp, s3) := read_point s2 in
  match String.length ip + String.length fp with
  | 0 => None
  | _ =>
      let (ex, s4) := read_exponent s3 in
      let m := digits_value (digits_value 0 ip) fp in
      Some (F64.of_decimal neg m (ex - Z.of_nat (String.length fp)), s4)
  end.

(** The spellings of infinity and of NaN, with an optional sign. *)
Definition read_special (s : string) : option float64 :=
  let (neg, body) := read_sign s in
  let b := lowercase body in
  if String.eqb b "inf" || String.eqb b "infinity" then Some (S754_infinity neg)
  else if String.eqb b "nan" then Some F64.nan
  else None.

(** [float(s)] for a string [s]; [None] is the [ValueError].  Digits
    grouped with '_' are not read here; no token of the scan has one. *)
Definition py_float (s : string) : option float64 :=
  let s' := strip s in
  match read_number s' with
  | Some (x, EmptyString) => Some x
  | _ => read_special s'
  end.

(** One cell of [pd.to_numeric(..., errors='coerce')] on text: leading
    and trailing blanks are skipped, the whole of the rest has to be one
    number, infinity is accepted under its two names, and everything
    else is coerced to the NaN. *)
Definition to_double (s : string) : option float64 :=
  match read_number (drop_while is_space_c s) with
  | Some (x, rest) =>
      match drop_while is_space_c rest with
      | EmptyString => Some x
      | _ => None
      end
  | None => None
  end.

Definition floatify (s : string) : option float64 :=
  match to_double s with
  | Some x => Some x
  | None =>
      let (neg, body) := read_sign s in
      let b := lowercase body in
      if String.eqb b "inf" || String.eqb b "infinity"
      then Some (S754_infinity neg) else None
  end.

Definition to_numeric_str (s : string) : float64 :=
  match floatify s with
  | Some x => x
  | None => F64.nan
  end.

(* ------------------------------------------------------------------ *)
(** ** [re.findall(r"[-+]?\d*\.\d+|\d+", s)] *)

(** First alternative, [[-+]?\d*\.\d+], at the head of [s]: the token and
    the text after it.  The quantifiers are greedy and giving digits or
    the sign back never helps, as the character after them has to be the
    point. *)
Definition match_decimal (s : string) : option (string * string) :=
  let (sg, s1) :=
    match s with
    | String c s' => if is_sign c then (String c EmptyString, s') else (EmptyString, s)
    | EmptyString => (EmptyString, s)
    end in
  let (ds, s2) := span is_digit s1 in
  match s2 with
  | String c s3 =>
      if Ascii.eqb c "." then
        let (fs, s4) := span is_digit s3 in
        match fs with
        | EmptyString => None
        | _ => Some ((sg ++ ds ++ String "." fs)%string, s4)
        end
      else None
  | EmptyString => None
  end.

(** Second alternative, [\d+]. *)
Definition match_integer (s : string) : option (string * string) :=
  let (ds, rest) := span is_digit s in
  match ds with
  | EmptyString => None
  | _ => Some (ds, rest)
  end.

Definition match_at (s : string) : option (string * string) :=
  match match_decimal s with
  | Some r => Some r
  | None => match_integer s
  end.

(** The scan: at each position the first alternative that matches wins,
    the scan resumes after the match, and a position where nothing
    matches is skipped.  [fuel] bounds the number of positions visited. *)
Fixpoint findall_from (fuel : nat) (s : string) : list string :=
  match fuel with
  | 0 => []
  | S fuel' =>
      match s with
      | EmptyString => []
      | String _ s' =>
          match match_at s with
          | Some (tok, rest) => tok :: findall_from fuel' rest
          | None => findall_from fuel' s'
          end
      end
  end.

Definition findall (s : string) : list string :=
  findall_from (String.length s) s.

(* ------------------------------------------------------------------ *)
(** ** [extract_coords] *)

(** The argument is a cell of the Geolocation column: [None] is the
    missing marker, for which [pd.isna] holds.  The result is the pair
    the function returns, [None] being Python's [None].  A [ValueError]
    of [float] is caught by the bare [except]. *)
Definition extract_coords (point_str : option string)
  : option float64 * option float64 :=
  match point_str with
  | None => (None, None)
  | Some s =>
      if String.eqb (strip s) "" then (None, None)
      else
        match findall s with
        | c0 :: c1 :: _ =>
            match py_float c1, py_float c0 with
            | Some lat, Some lon => (Some lat, Some lon)
            | _, _ => (None, None)
            end
        | _ => (None, None)
        end
  end.

(* ------------------------------------------------------------------ *)
(** ** Frames *)

Inductive column :=
| NumCol (xs : list float64)
| ObjCol (xs : list (option string)).

Definition DataFrame := list (string * column).

Definition col_length (c : column) : nat :=
  match c with
  | NumCol xs => List.length xs
  | ObjCol xs => List.length xs
  end.

(** [df.columns] *)
Definition columns (df : DataFrame) : list string := map fst df.

(** [len(df)] *)
Definition nrows (df : DataFrame) : nat :=
  match df with
  | [] => 0
  | (_, c) :: _ => col_length c
  end.

(** [df[name]]; [None] is the [KeyError]. *)
Fixpoint get (name : string) (df : DataFrame) : option column :=
  match df with
  | [] => None
  | (n, c) :: df' => if String.eqb n name then Some c else get name df'
  end.

(** [df[name] = c]: an existing column is replaced where it stands, a new
    one is appended. *)
Fixpoint set_column (name : string) (c : column) (df : DataFrame) : DataFrame :=
  match df with
  | [] => [(name, c)]
  | (n, c') :: df' =>
      if String.eqb n name then (n, c) :: df'
      else (n, c') :: set_column name c df'
  end.

(** The cells of a column read as text labels.  A numeric column where
    text is expected is a column the file left empty: its cells carry no
    label. *)
Definition labels (c : column) : list (option string) :=
  match c with
  | ObjCol xs => xs
  | NumCol xs => map (fun _ => None) xs
  end.

(** Python's [None] stored in a float column is the NaN. *)
Definition of_opt (o : option float64) : float64 :=
  match o with
  | Some x => x
  | None => F64.nan
  end.

(* ------------------------------------------------------------------ *)
(** ** [load_data] *)

Inductive result (A : Type) :=
| Ok (a : A)
| Raise (msg : string).
Arguments Ok {A} a.
Arguments Raise {A} msg.

(** [str(x)] of a cell of an object column: the missing marker prints as
    "nan". *)
Definition astype_str (x : option string) : string :=
  match x with
  | Some s => s
  | None => "nan"
  end.

(** [.astype(str).str.replace(',', '.')] on the cells of an object column. *)
Definition replace_commas (xs : list (option string)) : list (option string) :=
  map (fun x => Some (replace_char "," "." (astype_str x))) xs.

(** [pd.to_numeric(c, errors='coerce')] *)
Definition to_numeric (c : column) : column :=
  match c with
  | NumCol xs => NumCol xs
  | ObjCol xs =>
      NumCol (map (fun x => match x with
                            | Some s => to_numeric_str s
                            | None => F64.nan
                            end) xs)
  end.

Definition numeric_columns : list string :=
  ["Data_Value"; "Low_Confidence_Limit"; "High_Confidence_Limit"].

(** What the loop does to a text cell: the commas become points, and
    the text is parsed or coerced to the NaN. *)
Definition coerce_text (s : string) : float64 :=
  to_numeric_str (replace_char "," "." s).

(** What one turn of the loop assigns to its column: the replacement
    under the dtype guard, then the conversion. *)
Definition coerce_column (c : column) : column :=
  to_numeric (match c with
              | ObjCol xs => ObjCol (replace_commas xs)
              | NumCol _ => c
              end).

(** One turn of the loop over the numeric columns. *)
Definition clean_column (df : DataFrame) (col : string) : DataFrame :=
  match get col df with
  | None => df
  | Some c => set_column col (coerce_column c) df
  end.

(** The loop. *)
Definition clean_numeric (df : DataFrame) : DataFrame :=
  fold_left clean_column numeric_columns df.

(** The geolocation step.  [pd.DataFrame(coords.tolist(), index=df.index)]
    has one column per component of the tuples, so none when the frame
    has no row; assigning it to the two names then raises. *)
Definition add_coords (df : DataFrame) : result DataFrame :=
  match get "Geolocation" df with
  | None => Ok df
  | Some g =>
      let coords := map extract_coords (labels g) in
      match coords with
      | [] => Raise "Columns must be same length as key"
      | _ =>
          Ok (set_column "lon" (NumCol (map (fun p => of_opt (snd p)) coords))
               (set_column "lat" (NumCol (map (fun p => of_opt (fst p)) coords)) df))
      end
  end.

(** The body of the [try]: what is done to the frame that was read. *)
Definition clean (df : DataFrame) : result DataFrame :=
  add_coords (clean_numeric df).

(** What [pd.read_csv] did: it raised, or it returned a frame. *)
Inductive read_result :=
| ReadError (msg : string)
| ReadOk (df : DataFrame).

(** The calls to the page that matter here. *)
Inductive st_call :=
| St_set_page_config
| St_error (msg : string)
| St_title
| St_markdown
| St_sidebar_header
| St_selectbox (label : string) (options : list string)
| St_tabs
| St_subheader (text : string)
| St_write
| St_multiselect (options default : list (option string))
| St_plotly_chart (kind : string) (data : DataFrame)
| St_columns
| St_warning
| St_dataframe (data : DataFrame)
| St_sidebar_divider
| St_sidebar_caption.

(** A computation of the script: the calls made to the page so far, and
    a value or the exception that stopped it. *)
Definition script (A : Type) : Type := (list st_call * result A)%type.

Definition ret {A : Type} (a : A) : script A := ([], Ok a).

Definition bind {A B : Type} (m : script A) (f : A -> script B) : script B :=
  match m with
  | (calls, Ok a) => let (calls', r) := f a in (calls ++ calls', r)
  | (calls, Raise e) => (calls, Raise e)
  end.

Definition call (c : st_call) : script unit := ([c], Ok tt).

Definition lift {A : Type} (r : result A) : script A := ([], r).

Notation "x <- m ;; k" := (bind m (fun x => k))
  (at level 61, m at next level, right associativity).
Notation "m ;;; k" := (bind m (fun _ => k))
  (at level 61, right associativity).

(** [load_data()]: the frame, or the call to [st.error] and [None]. *)
Definition load_data (r : read_result) : script (option DataFrame) :=
  let attempt :=
    match r with
    | ReadError msg => Raise msg
    | ReadOk df => clean df
    end in
  match attempt with
  | Ok df => ret (Some df)
  | Raise e => call (St_error ("Error al cargar el archivo: " ++ e)) ;;; ret None
  end.

(* ------------------------------------------------------------------ *)
(** ** Row selection *)

(** [xs[mask]] *)
Fixpoint select {A : Type} (mask : list bool) (xs : list A) : list A :=
  match mask, xs with
  | b :: mask', x :: xs' => if b then x :: select mask' xs' else select mask' xs'
  | _, _ => []
  end.

Definition col_select (mask : list bool) (c : column) : column :=
  match c with
  | NumCol xs => NumCol (select mask xs)
  | ObjCol xs => ObjCol (select mask xs)
  end.

(** [df[mask]] *)
Definition loc (mask : list bool) (df : DataFrame) : DataFrame :=
  map (fun nc => (fst nc, col_select mask (snd nc))) df.

(** [c == v] for a selected label [v]; nothing equals a missing cell and
    nothing equals [None]. *)
Definition eq_mask (c : column) (v : option string) : list bool :=
  map (fun x => match x, v with
                | Some a, Some b => String.eqb a b
                | _, _ => false
                end) (labels c).

Definition cell_eqb (x y : option string) : bool :=
  match x, y with
  | Some a, Some b => String.eqb a b
  | None, None => true
  | _, _ => false
  end.

(** [c.isin(vals)]; a missing cell is in a list that holds the missing
    marker. *)
Definition isin (c : column) (vals : list (option string)) : list bool :=
  map (fun x => existsb (cell_eqb x) vals) (labels c).

(** [m1 & m2] *)
Fixpoint mask_and (m1 m2 : list bool) : list bool :=
  match m1, m2 with
  | a :: m1', b :: m2' => (a && b) :: mask_and m1' m2'
  | _, _ => []
  end.

(** Line 67:
    [df[(df['Topic'] == tema_sel) & (df['Age Group'] == edad_sel)]]. *)
Definition df_mapa (df : DataFrame) (tema_sel edad_sel : option string)
  : result DataFrame :=
  match get "Topic" df, get "Age Group" df with
  | Some t, Some a => Ok (loc (mask_and (eq_mask t tema_sel) (eq_mask a edad_sel)) df)
  | None, _ => Raise "KeyError: 'Topic'"
  | _, None => Raise "KeyError: 'Age Group'"
  end.

(** Line 101: [df_mapa[df_mapa['LocationDesc'].isin(estados_sel)]]. *)
Definition df_filtered (mapa : DataFrame) (estados_sel : list (option string))
  : result DataFrame :=
  match get "LocationDesc" mapa with
  | Some l => Ok (loc (isin l estados_sel) mapa)
  | None => Raise "KeyError: 'LocationDesc'"
  end.

(* ------------------------------------------------------------------ *)
(** ** The grouped mean *)

Definition key := (string * string)%type.

Definition key_compare (k1 k2 : key) : comparison :=
  match String.compare (fst k1) (fst k2) with
  | Eq => String.compare (snd k1) (snd k2)
  | c => c
  end.

Definition key_eqb (k1 k2 : key) : bool :=
  String.eqb (fst k1) (fst k2) && String.eqb (snd k1) (snd k2).

(** A row as the aggregation reads it: the two key cells and the value. *)
Definition row := (option string * option string * float64)%type.

(** The key of a row; a row with a missing key cell has none and is left
    out ([dropna=True], the default of [groupby]). *)
Definition row_key (r : row) : option key :=
  match r with
  | (Some a, Some d, _) => Some (a, d)
  | _ => None
  end.

Definition row_value (r : row) : float64 := snd r.

Definition in_group (k : key) (r : row) : bool :=
  match row_key r with
  | Some k' => key_eqb k' k
  | None => false
  end.

(** The distinct keys in increasing order ([sort=True], the default). *)
Fixpoint insert_key (k : key) (l : list key) : list key :=
  match l with
  | [] => [k]
  | h :: t =>
      match key_compare k h with
      | Lt => k :: l
      | Eq => l
      | Gt => h :: insert_key k t
      end
  end.

Fixpoint row_keys (rows : list row) : list key :=
  match rows with
  | [] => []
  | r :: rows' =>
      match row_key r with
      | Some k => k :: row_keys rows'
      | None => row_keys rows'
      end
  end.

Definition sorted_keys (rows : list row) : list key :=
  fold_right insert_key [] (row_keys rows).

(** The values of the rows of group [k], in row order. *)
Definition group_values (k : key) (rows : list row) : list float64 :=
  map row_value (filter (in_group k) rows).

(** The accumulator of the mean of one group: the number of values that
    are not NaN, their running sum and its compensation term. *)
Record mean_acc := {
  nobs : nat;
  sumx : float64;
  compensation : float64
}.

Definition mean_init : mean_acc :=
  {| nobs := 0; sumx := F64.zero; compensation := F64.zero |}.

(** One value added to the running sum, as the group mean of pandas
    accumulates it (compensated summation, the values taken in row
    order); a NaN is skipped. *)
Definition mean_step (a : mean_acc) (val : float64) : mean_acc :=
  if F64.is_nan val then a
  else
    let y := F64.sub val (compensation a) in
    let t := F64.add (sumx a) y in
    let c := F64.sub (F64.sub t (sumx a)) y in
    {| nobs := S (nobs a);
       sumx := t;
       compensation := if F64.is_nan c then F64.zero else c |}.

Definition group_mean (vals : list float64) : float64 :=
  let a := fold_left mean_step vals mean_init in
  match nobs a with
  | 0 => F64.nan
  | n => F64.div (sumx a) (F64.of_nat n)
  end.

(** [groupby(keys)[value].mean()] on rows: one entry per key, in key
    order. *)
Definition groupby_mean (rows : list row) : list (key * float64) :=
  map (fun k => (k, group_mean (group_values k rows))) (sorted_keys rows).

(** The rows of a frame as the aggregation reads them. *)
Definition geo_rows (abbr desc : list (option string)) (vals : list float64)
  : list row :=
  combine (combine abbr desc) vals.

(** [reset_index()]: the keys become the first two columns. *)
Definition geo_frame (g : list (key * float64)) : DataFrame :=
  [("LocationAbbr", ObjCol (map (fun e => Some (fst (fst e))) g));
   ("LocationDesc", ObjCol (map (fun e => Some (snd (fst e))) g));
   ("Data_Value", NumCol (map snd g))].

(** Line 77: [df_mapa.groupby(['LocationAbbr', 'LocationDesc'])
    ['Data_Value'].mean().reset_index()]. *)
Definition df_geo (mapa : DataFrame) : result DataFrame :=
  match get "LocationAbbr" mapa, get "LocationDesc" mapa, get "Data_Value" mapa with
  | None, _, _ => Raise "KeyError: 'LocationAbbr'"
  | _, None, _ => Raise "KeyError: 'LocationDesc'"
  | _, _, None => Raise "KeyError: 'Column not found: Data_Value'"
  | Some a, Some d, Some (NumCol vals) =>
      Ok (geo_frame (groupby_mean (geo_rows (labels a) (labels d) vals)))
  | Some _, Some _, Some (ObjCol _) =>
      Raise "TypeError: agg function failed [how->mean,dtype->object]"
  end.

(* ------------------------------------------------------------------ *)
(** ** The script *)

(** What the person at the page chooses in each widget, given what the
    widget offers. *)
Record user := {
  pick_tema : list string -> option string;
  pick_edad : list string -> option string;
  pick_estados : list (option string) -> list (option string) -> list (option string)
}.

Fixpoint insert_label (x : string) (l : list string) : list string :=
  match l with
  | [] => [x]
  | h :: t =>
      match String.compare x h with
      | Lt => x :: l
      | Eq => l
      | Gt => h :: insert_label x t
      end
  end.

(** [sorted(c.dropna().unique())] *)
Fixpoint sorted_labels (xs : list (option string)) : list string :=
  match xs with
  | [] => []
  | Some x :: xs' => insert_label x (sorted_labels xs')
  | None :: xs' => sorted_labels xs'
  end.

Definition is_missing (x : option string) : bool :=
  match x with
  | None => true
  | Some _ => false
  end.

(** [sorted(c.unique())]: the missing marker does not compare with a
    string. *)
Definition sorted_unique (xs : list (option string)) : result (list (option string)) :=
  if existsb is_missing xs then
    match sorted_labels xs with
    | [] => Ok [None]
    | _ => Raise "TypeError: '<' not supported between instances of 'str' and 'float'"
    end
  else Ok (map Some (sorted_labels xs)).

(** [df.empty] *)
Definition empty (df : DataFrame) : bool :=
  match df with
  | [] => true
  | _ => nrows df =? 0
  end.

Definition column_of (name : string) (df : DataFrame) : result column :=
  match get name df with
  | Some c => Ok c
  | None => Raise ("KeyError: '" ++ name ++ "'")
  end.

(** A chart over the frame needs the columns it is told to draw. *)
Fixpoint chart (kind : string) (needs : list string) (df : DataFrame) (data : DataFrame)
  : script unit :=
  match needs with
  | [] => call (St_plotly_chart kind data)
  | n :: needs' =>
      match get n df with
      | Some _ => chart kind needs' df data
      | None => lift (Raise ("ValueError: " ++ n ++ " is not the name of a column"))
      end
  end.

(** Lines 53 to 120: the branch taken when a frame was loaded. *)
Definition dashboard (df : DataFrame) (u : user) : script unit :=
  call St_title ;;;
  call St_markdown ;;;
  call St_sidebar_header ;;;
  topic <- lift (column_of "Topic" df) ;;
  let temas := sorted_labels (labels topic) in
  call (St_selectbox "1. Selecciona el Tema:" temas) ;;;
  let tema_sel := pick_tema u temas in
  age <- lift (column_of "Age Group" df) ;;
  let edades := sorted_labels (labels age) in
  call (St_selectbox "2. Grupo de Edad:" edades) ;;;
  let edad_sel := pick_edad u edades in
  mapa <- lift (df_mapa df tema_sel edad_sel) ;;
  call St_tabs ;;;
  call (St_subheader ("Intensidad de " ++ match tema_sel with
                                         | Some t => t
                                         | None => "None"
                                         end)) ;;;
  call St_write ;;;
  geo <- lift (df_geo mapa) ;;
  call (St_plotly_chart "choropleth" geo) ;;;
  call (St_subheader "Filtro por Estados Específicos") ;;;
  desc <- lift (column_of "LocationDesc" mapa) ;;
  options <- lift (sorted_unique (labels desc)) ;;
  call (St_multiselect options (firstn 5 options)) ;;;
  let estados_sel := pick_estados u options (firstn 5 options) in
  filtered <- lift (df_filtered mapa estados_sel) ;;
  (if empty filtered then call St_warning
   else
     call St_columns ;;;
     call St_write ;;;
     chart "bar" ["Stratification1"; "Data_Value"; "LocationDesc"] filtered filtered ;;;
     call St_write ;;;
     chart "scatter" ["Low_Confidence_Limit"; "High_Confidence_Limit";
                      "LocationDesc"; "Stratification1"] filtered filtered) ;;;
  call (St_subheader "Explorador de Datos Crudos") ;;;
  call (St_dataframe (if empty filtered then mapa else filtered)).

Definition init_error : string :=
  "No se pudo inicializar el dashboard. Verifica que el archivo CSV esté en la raíz del proyecto.".

(** The whole module, top to bottom. *)
Definition main (r : read_result) (u : user) : script unit :=
  call St_set_page_config ;;;
  df <- load_data r ;;
  match df with
  | Some df => dashboard df u
  | None => call (St_error init_error)
  end ;;;
  call St_sidebar_divider ;;;
  call St_sidebar_caption.

(* ================================================================== *)
(** * Notions used in the statements *)

(* ------------------------------------------------------------------ *)
(** ** Tokens *)

(** The shape of a token of the scan. *)
Inductive token_shape : string -> Prop :=
| shape_decimal sg ds fs :
    sg = "" \/ sg = "+" \/ sg = "-" ->
    all_chars is_digit ds = true ->
    all_chars is_digit fs = true ->
    fs <> "" ->
    token_shape (sg ++ ds ++ String "." fs)
| shape_integer ds :
    all_chars is_digit ds = true ->
    ds <> "" ->
    token_shape ds.

Definition is_token_char (c : ascii) : bool :=
  is_digit c || is_sign c || Ascii.eqb c ".".

(* ------------------------------------------------------------------ *)
(** ** Frames *)

(** The two columns the geolocation step computes from the Geolocation
    column [g]. *)
Definition lat_of (g : column) : column :=
  NumCol (map (fun x => of_opt (fst (extract_coords x))) (labels g)).

Definition lon_of (g : column) : column :=
  NumCol (map (fun x => of_opt (snd (extract_coords x))) (labels g)).

Definition coord_columns : list string := ["lat"; "lon"].

(** The names the geolocation step adds to the frame. *)
Definition appended (df : DataFrame) : list string :=
  match get "Geolocation" df with
  | None => []
  | Some _ =>
      match get "lat" df with Some _ => [] | None => ["lat"] end ++
      match get "lon" df with Some _ => [] | None => ["lon"] end
  end.

(** Sequencing of two steps that may raise. *)
Definition and_then {A B : Type} (r : result A) (f : A -> result B) : result B :=
  match r with
  | Ok a => f a
  | Raise e => Raise e
  end.

(** The table filtered at once by the conjunction of the primary
    predicate (topic and age group) and the secondary one (membership of
    the location), as the specification words it. *)
Definition select_conjunction (df : DataFrame) (tema edad : option string)
    (estados : list (option string)) : result DataFrame :=
  match get "Topic" df, get "Age Group" df, get "LocationDesc" df with
  | Some t, Some a, Some l =>
      Ok (loc (mask_and (mask_and (eq_mask t tema) (eq_mask a edad))
                        (isin l estados)) df)
  | None, _, _ => Raise "KeyError: 'Topic'"
  | _, None, _ => Raise "KeyError: 'Age Group'"
  | _, _, None => Raise "KeyError: 'LocationDesc'"
  end.

(** The locations of a frame, among which the multiselect lets choose. *)
Definition offered (mapa : DataFrame) : list (option string) :=
  match get "LocationDesc" mapa with
  | Some l => labels l
  | None => []
  end.

(** The frame whose three columns hold the given rows. *)
Definition frame_of_rows (rows : list row) : DataFrame :=
  [("LocationAbbr", ObjCol (map (fun r => fst (fst r)) rows));
   ("LocationDesc", ObjCol (map (fun r => snd (fst r)) rows));
   ("Data_Value", NumCol (map row_value rows))].

(* ------------------------------------------------------------------ *)
(** ** Groups *)

Definition key_lt (a b : key) : Prop := key_compare a b = Lt.

Definition has_key (r : row) : bool :=
  match row_key r with
  | Some _ => true
  | None => false
  end.

Definition present (v : float64) : bool := negb (F64.is_nan v).

(** The compensated sum of a list of values. *)
Definition float_sum (vals : list float64) : float64 :=
  sumx (fold_left mean_step vals mean_init).

(** The mean taken with a plain running sum, without the compensation
    term, for comparison. *)
Definition plain_mean (vals : list float64) : float64 :=
  F64.div (fold_left F64.add vals F64.zero) (F64.of_nat (List.length vals)).

(* ------------------------------------------------------------------ *)
(** ** Frames and rows used as examples *)

Definition sample : DataFrame :=
  [("Topic", ObjCol [Some "Cognitive Decline"; Some "Cognitive Decline"; Some "Caregiving"]);
   ("Age Group", ObjCol [Some "65 years or older"; Some "65 years or older"; Some "Overall"]);
   ("LocationAbbr", ObjCol [Some "IL"; Some "IL"; Some "CA"]);
   ("LocationDesc", ObjCol [Some "Illinois"; Some "Illinois"; Some "California"]);
   ("Data_Value", ObjCol [Some "12,5"; Some "1.234,5"; None]);
   ("Low_Confidence_Limit", NumCol [F64.lit 10; F64.nan; F64.lit 3]);
   ("Geolocation", ObjCol [Some "POINT (-87.6298 41.8781)"; Some "N/A"; None])].

Definition sample_geolocation : column :=
  ObjCol [Some "POINT (-87.6298 41.8781)"; Some "N/A"; None].

Definition sample_cleaned : DataFrame :=
  set_column "lon" (lon_of sample_geolocation)
    (set_column "lat" (lat_of sample_geolocation) (clean_numeric sample)).

(** A file with its header line and no record. *)
Definition header_only : DataFrame :=
  [("Topic", ObjCol []); ("Data_Value", ObjCol []); ("Geolocation", ObjCol [])].

(** A person who takes the first option of each list and keeps the
    default locations. *)
Definition first_choice : user :=
  {| pick_tema := @hd_error string;
     pick_edad := @hd_error string;
     pick_estados := fun _ default => default |}.

Definition scenario_rows : list row :=
  [(Some "IL", Some "Chicago", F64.lit 10);
   (Some "IL", Some "Chicago", F64.lit 20);
   (Some "CA", Some "LA", F64.nan)].

Definition scenario_frame : DataFrame :=
  [("LocationAbbr", ObjCol [Some "IL"; Some "IL"; Some "CA"]);
   ("LocationDesc", ObjCol [Some "Chicago"; Some "Chicago"; Some "LA"]);
   ("Data_Value", NumCol [F64.lit 10; F64.lit 20; F64.nan])].

(** Three percentages of one state, in two orders. *)
Definition percent_rows : list row :=
  [(Some "IL", Some "Illinois", F64.lit 72.2);
   (Some "IL", Some "Illinois", F64.lit 22.9);
   (Some "IL", Some "Illinois", F64.lit 94.5)].

Definition percent_rows_permuted : list row :=
  [(Some "IL", Some "Illinois", F64.lit 22.9);
   (Some "IL", Some "Illinois", F64.lit 94.5);
   (Some "IL", Some "Illinois", F64.lit 72.2)].

(** Three values of one state whose sum can be followed by hand: adding
    1 to 1e100 leaves 1e100. *)
Definition large_first : list row :=
  [(Some "IL", Some "Illinois", F64.lit 1e100);
   (Some "IL", Some "Illinois", F64.lit 1);
   (Some "IL", Some "Illinois", F64.lit (-1e100))].

Definition large_together : list row :=
  [(Some "IL", Some "Illinois", F64.lit 1e100);
   (Some "IL", Some "Illinois", F64.lit (-1e100));
   (Some "IL", Some "Illinois", F64.lit 1)].

(** Rows of two states, and the same rows with the first two swapped. *)
Definition mixed_rows : list row :=
  [(Some "IL", Some "Illinois", F64.lit 10);
   (Some "CA", Some "California", F64.lit 5);
   (Some "IL", Some "Illinois", F64.lit 20.5)].

Definition mixed_rows_swapped : list row :=
  [(Some "CA", Some "California", F64.lit 5);
   (Some "IL", Some "Illinois", F64.lit 10);
   (Some "IL", Some "Illinois", F64.lit 20.5)].

(** Two rows with both key cells, and two with one of them missing. *)
Definition rows_with_gaps : list row :=
  [(Some "IL", Some "Illinois", F64.lit 10);
   (None, Some "Illinois", F64.lit 1000);
   (Some "IL", None, F64.lit 2000);
   (Some "IL", Some "Illinois", F64.lit 20)].

(* ------------------------------------------------------------------ *)
(** ** Notions of the further properties *)

(** The text of a point, as the data set writes it. *)
Definition point_text (lon lat : string) : string :=
  "POINT (" ++ lon ++ " " ++ lat ++ ")".

(** A character after which a token ends: no digit and not the point. *)
Definition ends_token (rest : string) : Prop :=
  match rest with
  | String c _ => is_digit c = false /\ c <> "."%char
  | EmptyString => True
  end.

(** All the columns of a frame have the same number of cells. *)
Definition well_formed (df : DataFrame) : Prop :=
  Forall (fun nc => col_length (snd nc) = nrows df) df.

(** The number of rows a mask keeps. *)
Definition count_true (mask : list bool) : nat :=
  List.length (filter (fun b : bool => b) mask).

Definition label_lt (a b : string) : Prop := String.compare a b = Lt.

(** The test of one cell in the comparison of a column with a label. *)
Definition label_is (v : option string) (x : option string) : bool :=
  match x, v with
  | Some a, Some b => String.eqb a b
  | _, _ => false
  end.

(** The calls that only the dashboard makes. *)
Definition dashboard_call (c : st_call) : Prop :=
  match c with
  | St_set_page_config | St_error _ | St_sidebar_divider | St_sidebar_caption => False
  | _ => True
  end.

(** A frame with the columns the dashboard reads, and one with a row
    whose location is missing. *)
Definition survey : DataFrame :=
  [("Topic", ObjCol [Some "Caregiving"; Some "Caregiving"; Some "Mental Health"]);
   ("Age Group", ObjCol [Some "Overall"; Some "Overall"; Some "Overall"]);
   ("LocationAbbr", ObjCol [Some "IL"; Some "CA"; Some "IL"]);
   ("LocationDesc", ObjCol [Some "Illinois"; Some "California"; Some "Illinois"]);
   ("Stratification1", ObjCol [Some "Female"; Some "Male"; Some "Male"]);
   ("Data_Value", NumCol [F64.lit 10; F64.lit 5; F64.lit 20.5]);
   ("Low_Confidence_Limit", NumCol [F64.lit 9; F64.lit 4; F64.lit 19]);
   ("High_Confidence_Limit", NumCol [F64.lit 11; F64.lit 6; F64.lit 22])].


(** The same survey with a row whose location name is missing. *)
Definition survey_with_gap : DataFrame :=
  [("Topic", ObjCol [Some "Caregiving"; Some "Caregiving"; Some "Mental Health"]);
   ("Age Group", ObjCol [Some "Overall"; Some "Overall"; Some "Overall"]);
   ("LocationAbbr", ObjCol [Some "IL"; Some "CA"; Some "IL"]);
   ("LocationDesc", ObjCol [Some "Illinois"; None; Some "Illinois"]);
   ("Stratification1", ObjCol [Some "Female"; Some "Male"; Some "Male"]);
   ("Data_Value", NumCol [F64.lit 10; F64.lit 5; F64.lit 20.5]);
   ("Low_Confidence_Limit", NumCol [F64.lit 9; F64.lit 4; F64.lit 19]);
   ("High_Confidence_Limit", NumCol [F64.lit 11; F64.lit 6; F64.lit 22])].

(* ================================================================== *)
(** * Lemmas *)

(* ------------------------------------------------------------------ *)
(** ** Characters *)

Lemma digit_not_space c : is_digit c = true -> is_space c = false.
Proof.
  unfold is_digit, is_space. intros H.
  apply andb_true_iff in H. destruct H as [H1 H2].
  apply Nat.leb_le in H1.
  apply orb_false_iff. split; apply andb_false_iff.
  - right. apply Nat.leb_gt. lia.
  - right. apply Nat.leb_gt. lia.
Qed.

Lemma digit_not_char c (a : ascii) :
  is_digit a = false -> is_digit c = true -> Ascii.eqb c a = false.
Proof.
  intros Ha Hc. destruct (Ascii.eqb_spec c a) as [->|]; congruence.
Qed.

Lemma sign_cases c :
  is_sign c = true -> c = "+"%char \/ c = "-"%char.
Proof.
  unfold is_sign. intros H. apply orb_true_iff in H.
  destruct H as [H|H]; apply Ascii.eqb_eq in H; auto.
Qed.

(* ------------------------------------------------------------------ *)
(** ** Strings *)

Lemma append_empty_r (s : string) : (s ++ "")%string = s.
Proof. induction s; simpl; congruence. Qed.

Lemma append_assoc (a b c : string) :
  ((a ++ b) ++ c)%string = (a ++ b ++ c)%string.
Proof. induction a; simpl; congruence. Qed.

Lemma length_append (a b : string) :
  String.length (a ++ b) = String.length a + String.length b.
Proof. induction a; simpl; congruence. Qed.

Lemma all_chars_app p a b :
  all_chars p (a ++ b) = all_chars p a && all_chars p b.
Proof.
  induction a; simpl; [reflexivity|].
  rewrite IHa. apply andb_assoc.
Qed.

Lemma all_chars_weaken (p q : ascii -> bool) s :
  (forall c, p c = true -> q c = true) ->
  all_chars p s = true -> all_chars q s = true.
Proof.
  intros Hpq. induction s; simpl; [reflexivity|].
  intros H. apply andb_true_iff in H. destruct H as [H1 H2].
  rewrite (Hpq _ H1), (IHs H2). reflexivity.
Qed.

Lemma count_char_app a s1 s2 :
  count_char a (s1 ++ s2) = count_char a s1 + count_char a s2.
Proof. induction s1; simpl; [reflexivity|]. rewrite IHs1. lia. Qed.

Lemma count_char_none a p s :
  p a = false -> all_chars p s = true -> count_char a s = 0.
Proof.
  intros Ha. induction s as [|c s IH]; simpl; [reflexivity|].
  intros H. apply andb_true_iff in H. destruct H as [H1 H2].
  rewrite (IH H2).
  destruct (Ascii.eqb_spec c a) as [->|]; [congruence|reflexivity].
Qed.

Section Span.

Variable p : ascii -> bool.

Lemma span_append s :
  (fst (span p s) ++ snd (span p s))%string = s.
Proof.
  induction s as [|c s IH]; simpl; [reflexivity|].
  destruct (p c); [|reflexivity].
  destruct (span p s) as [a b]. simpl in *. congruence.
Qed.

Lemma span_all s : all_chars p (fst (span p s)) = true.
Proof.
  induction s as [|c s IH]; simpl; [reflexivity|].
  destruct (p c) eqn:E; [|reflexivity].
  destruct (span p s) as [a b]. simpl in *. rewrite E, IH. reflexivity.
Qed.

Lemma span_stop s c r : snd (span p s) = String c r -> p c = false.
Proof.
  induction s as [|c' s IH]; simpl; [discriminate|].
  destruct (p c') eqn:E.
  - destruct (span p s) as [a b]. simpl in *. exact IH.
  - simpl. congruence.
Qed.

Lemma span_length s : String.length (snd (span p s)) <= String.length s.
Proof.
  induction s as [|c s IH]; simpl; [lia|].
  destruct (p c); [|simpl; lia].
  destruct (span p s) as [a b]. simpl in *. lia.
Qed.

Lemma span_exact a b :
  all_chars p a = true ->
  match b with String c _ => p c = false | EmptyString => True end ->
  span p (a ++ b) = (a, b).
Proof.
  intros Ha Hb. induction a as [|c a IH]; simpl in *.
  - destruct b as [|c b]; [reflexivity|]. simpl. rewrite Hb. reflexivity.
  - apply andb_true_iff in Ha. destruct Ha as [H1 H2].
    rewrite H1, (IH H2). reflexivity.
Qed.

Lemma span_whole a : all_chars p a = true -> span p a = (a, EmptyString).
Proof.
  intros Ha. rewrite <- (span_exact a "" Ha I). f_equal.
  symmetry. apply append_empty_r.
Qed.

Lemma span_none s : all_chars (fun c => negb (p c)) s = true -> span p s = (EmptyString, s).
Proof.
  destruct s as [|c s]; simpl; [reflexivity|].
  intros H. apply andb_true_iff in H. destruct H as [H _].
  apply negb_true_iff in H. rewrite H. reflexivity.
Qed.

Lemma count_char_span a s :
  p a = false -> count_char a (snd (span p s)) = count_char a s.
Proof.
  intros Ha.
  rewrite <- (span_append s) at 2. rewrite count_char_app.
  rewrite (count_char_none a p _ Ha (span_all s)). reflexivity.
Qed.

End Span.

Lemma rstrip_all_space s : rstrip s = "" -> all_chars is_space s = true.
Proof.
  induction s as [|c s IH]; simpl; [reflexivity|].
  destruct (rstrip s) eqn:E; [|discriminate].
  destruct (is_space c); [|discriminate].
  intros _. simpl. apply IH. reflexivity.
Qed.

Lemma strip_empty_all_space s : strip s = "" -> all_chars is_space s = true.
Proof.
  unfold strip, drop_while. intros H. apply rstrip_all_space in H.
  rewrite <- (span_append is_space s), all_chars_app, span_all, H. reflexivity.
Qed.

Lemma rstrip_no_space s :
  all_chars (fun c => negb (is_space c)) s = true -> rstrip s = s.
Proof.
  induction s as [|c s IH]; simpl; [reflexivity|].
  intros H. apply andb_true_iff in H. destruct H as [H1 H2].
  rewrite (IH H2). apply negb_true_iff in H1. rewrite H1.
  destruct s; reflexivity.
Qed.

Lemma strip_no_space s :
  all_chars (fun c => negb (is_space c)) s = true -> strip s = s.
Proof.
  intros H. unfold strip, drop_while.
  rewrite (span_none is_space s H). simpl. apply rstrip_no_space, H.
Qed.

Lemma replace_char_idempotent a b s :
  a <> b -> replace_char a b (replace_char a b s) = replace_char a b s.
Proof.
  intros Hab. induction s as [|c s IH]; simpl; [reflexivity|].
  rewrite IH. f_equal.
  destruct (Ascii.eqb_spec c a) as [->|Hc].
  - destruct (Ascii.eqb_spec b a); congruence.
  - destruct (Ascii.eqb_spec c a); congruence.
Qed.

Lemma count_char_replaced a b s :
  a <> b -> count_char a (replace_char a b s) = 0.
Proof.
  intros Hab. induction s as [|c s IH]; simpl; [reflexivity|].
  rewrite IH.
  destruct (Ascii.eqb_spec c a) as [->|Hc].
  - destruct (Ascii.eqb_spec b a); [congruence|reflexivity].
  - destruct (Ascii.eqb_spec c a); [congruence|reflexivity].
Qed.

Lemma count_char_replace_target a b s :
  a <> b ->
  count_char b (replace_char a b s) = count_char b s + count_char a s.
Proof.
  intros Hab. induction s as [|c s IH]; simpl; [reflexivity|].
  rewrite IH.
  destruct (Ascii.eqb_spec c a) as [->|Hc].
  - rewrite Ascii.eqb_refl. destruct (Ascii.eqb_spec a b); [congruence|]. lia.
  - destruct (Ascii.eqb_spec c b); lia.
Qed.

(* ------------------------------------------------------------------ *)
(** ** Rounding never invents a NaN *)

Section Rounding.

Variables prec emax : Z.

Lemma shr_1_nonneg mrs : (0 <= shr_m mrs)%Z -> (0 <= shr_m (shr_1 mrs))%Z.
Proof.
  destruct mrs as [m r s0]. simpl.
  destruct m as [|q|q]; simpl; try lia; destruct q; simpl; lia.
Qed.

Lemma iter_shr_1_nonneg n : forall mrs,
  (0 <= shr_m mrs)%Z -> (0 <= shr_m (iter_pos shr_1 n mrs))%Z.
Proof.
  induction n as [n IH|n IH|]; intros mrs H; simpl.
  - apply IH, IH, shr_1_nonneg, H.
  - apply IH, IH, H.
  - apply shr_1_nonneg, H.
Qed.

Lemma shr_fexp_nonneg m e l :
  (0 <= m)%Z -> (0 <= shr_m (fst (shr_fexp prec emax m e l)))%Z.
Proof.
  intros H. unfold shr_fexp, shr.
  assert (H0 : (0 <= shr_m (shr_record_of_loc m l))%Z)
    by (destruct l as [|[]]; simpl; exact H).
  destruct (fexp prec emax (Zdigits2 m + e) - e)%Z; simpl; auto.
  apply iter_shr_1_nonneg, H0.
Qed.

Lemma round_nearest_even_nonneg m l :
  (0 <= m)%Z -> (0 <= round_nearest_even m l)%Z.
Proof.
  intros H. destruct l as [|[]]; simpl; try lia.
  destruct (Z.even m); lia.
Qed.

Lemma binary_round_aux_not_nan sx mx ex lx :
  (0 <= mx)%Z -> F64.is_nan (binary_round_aux prec emax sx mx ex lx) = false.
Proof.
  intros H. unfold binary_round_aux.
  pose proof (shr_fexp_nonneg mx ex lx H) as H1.
  destruct (shr_fexp prec emax mx ex lx) as [mrs' e']. simpl in H1.
  pose proof (shr_fexp_nonneg _ e' loc_Exact
                (round_nearest_even_nonneg _ (loc_of_shr_record mrs') H1)) as H2.
  destruct (shr_fexp prec emax (round_nearest_even (shr_m mrs') (loc_of_shr_record mrs')) e' loc_Exact)
    as [mrs'' e'']. simpl in H2.
  destruct (shr_m mrs'') as [|q|q]; [reflexivity| |lia].
  destruct (e'' <=? emax - prec)%Z; reflexivity.
Qed.

Lemma binary_round_not_nan sx mx ex :
  F64.is_nan (binary_round prec emax sx mx ex) = false.
Proof.
  unfold binary_round.
  destruct (shl_align mx ex (fexp prec emax (Z.pos (digits2_pos mx) + ex))) as [mz ez].
  apply binary_round_aux_not_nan. lia.
Qed.

Lemma div_finite_not_nan sx mx ex sy my ey :
  F64.is_nan (SFdiv prec emax (S754_finite sx mx ex) (S754_finite sy my ey)) = false.
Proof.
  unfold SFdiv, SFdiv_core_binary.
  set (e' := Z.min _ _). set (m' := match (ex - ey - e')%Z with Z0 => _ | Zpos _ => _ | Zneg _ => _ end).
  assert (Hm : (0 <= m')%Z).
  { unfold m'. destruct (ex - ey - e')%Z; try lia.
    apply Z.shiftl_nonneg. lia. }
  pose proof (Z_div_mod m' (Z.pos my) ltac:(lia)) as Hd.
  destruct (Z.div_eucl m' (Z.pos my)) as [q r].
  apply binary_round_aux_not_nan. nia.
Qed.

End Rounding.

Lemma of_decimal_not_nan neg m e : F64.is_nan (F64.of_decimal neg m e) = false.
Proof.
  unfold F64.of_decimal. destruct m as [|q]; [reflexivity|].
  destruct (0 <=? e)%Z.
  - apply binary_round_not_nan.
  - apply div_finite_not_nan.
Qed.

(* ------------------------------------------------------------------ *)
(** ** The scan of [findall] *)

Lemma match_decimal_shorter s tok rest :
  match_decimal s = Some (tok, rest) -> String.length rest < String.length s.
Proof.
  unfold match_decimal.
  set (sg := match s with String c s' => _ | EmptyString => _ end).
  assert (Hsg : String.length (snd sg) <= String.length s).
  { unfold sg. destruct s as [|c s']; simpl; [lia|].
    destruct (is_sign c); simpl; lia. }
  destruct sg as [sg s1]. simpl in Hsg.
  pose proof (span_length is_digit s1) as H1.
  destruct (span is_digit s1) as [ds s2]. simpl in H1.
  destruct s2 as [|c s3]; [discriminate|].
  destruct (Ascii.eqb c "."); [|discriminate].
  pose proof (span_length is_digit s3) as H3.
  destruct (span is_digit s3) as [fs s4]. simpl in H3.
  destruct fs; [discriminate|].
  intros H. injection H as _ <-. simpl in H1. lia.
Qed.

Lemma match_integer_shorter s tok rest :
  match_integer s = Some (tok, rest) -> String.length rest < String.length s.
Proof.
  unfold match_integer.
  pose proof (span_append is_digit s) as Ha.
  destruct (span is_digit s) as [ds r]. simpl in Ha.
  destruct ds as [|c ds]; [discriminate|].
  intros H. injection H as _ <-.
  rewrite <- Ha. simpl. rewrite length_append. lia.
Qed.

Lemma match_at_shorter s tok rest :
  match_at s = Some (tok, rest) -> String.length rest < String.length s.
Proof.
  unfold match_at. destruct (match_decimal s) as [[t r]|] eqn:E.
  - intros H. injection H as <- <-. eapply match_decimal_shorter, E.
  - apply match_integer_shorter.
Qed.

(** Any fuel that covers the length of the text gives the same tokens. *)
Lemma findall_from_enough n : forall m s,
  String.length s <= n -> String.length s <= m ->
  findall_from n s = findall_from m s.
Proof.
  induction n as [|n IH]; intros m s Hn Hm.
  - destruct s; [|simpl in Hn; lia]. destruct m; reflexivity.
  - destruct m as [|m]; [destruct s; [reflexivity|simpl in Hm; lia]|].
    simpl. destruct s as [|c s']; [reflexivity|].
    destruct (match_at (String c s')) as [[tok rest]|] eqn:E.
    + apply match_at_shorter in E. simpl in *.
      f_equal. apply IH; lia.
    + simpl in *. apply IH; lia.
Qed.

(** The scan as its own recursion: the length of the text is fuel enough. *)
Lemma findall_unfold s :
  findall s =
  match s with
  | EmptyString => []
  | String _ s' =>
      match match_at s with
      | Some (tok, rest) => tok :: findall rest
      | None => findall s'
      end
  end.
Proof.
  unfold findall. destruct s as [|c s']; [reflexivity|].
  cbn [String.length findall_from].
  destruct (match_at (String c s')) as [[tok rest]|] eqn:E.
  - apply match_at_shorter in E. simpl in E.
    f_equal. apply findall_from_enough; lia.
  - reflexivity.
Qed.

(** A token has a digit at its head, or after its sign and point. *)
Lemma match_at_space c s : is_space c = true -> match_at (String c s) = None.
Proof.
  intros Hc.
  assert (Hd : is_digit c = false).
  { destruct (is_digit c) eqn:E; [|reflexivity].
    apply digit_not_space in E. congruence. }
  assert (Hs : is_sign c = false).
  { destruct (is_sign c) eqn:E; [|reflexivity].
    apply sign_cases in E. destruct E; subst; discriminate. }
  assert (Hp : Ascii.eqb c "." = false).
  { destruct (Ascii.eqb_spec c "."); [subst; discriminate|reflexivity]. }
  unfold match_at, match_decimal, match_integer. rewrite Hs.
  simpl. rewrite Hd, Hp. reflexivity.
Qed.

Lemma findall_blank s : all_chars is_space s = true -> findall s = [].
Proof.
  induction s as [|c s IH]; intros H; [reflexivity|].
  simpl in H. apply andb_true_iff in H. destruct H as [H1 H2].
  rewrite findall_unfold, (match_at_space c s H1). apply IH, H2.
Qed.

Lemma match_at_shape s tok rest :
  match_at s = Some (tok, rest) -> token_shape tok.
Proof.
  unfold match_at. destruct (match_decimal s) as [[t r]|] eqn:E.
  - intros H. injection H as <- <-. revert E. unfold match_decimal.
    set (sg := match s with String c s' => _ | EmptyString => _ end).
    assert (Hsg : fst sg = "" \/ fst sg = "+" \/ fst sg = "-").
    { unfold sg. destruct s as [|c s']; simpl; auto.
      destruct (is_sign c) eqn:Es; simpl; auto.
      apply sign_cases in Es. destruct Es; subst; auto. }
    destruct sg as [sg s1]. simpl in Hsg.
    pose proof (span_all is_digit s1) as H1.
    destruct (span is_digit s1) as [ds s2]. simpl in H1.
    destruct s2 as [|c s3]; [discriminate|].
    destruct (Ascii.eqb_spec c "."); [subst c|discriminate].
    pose proof (span_all is_digit s3) as H3.
    destruct (span is_digit s3) as [fs s4]. simpl in H3.
    destruct fs as [|f fs'] eqn:Ef; [discriminate|]. rewrite <- Ef in *.
    intros H. injection H as <- _.
    apply shape_decimal; auto. rewrite Ef. discriminate.
  - unfold match_integer.
    pose proof (span_all is_digit s) as H1.
    destruct (span is_digit s) as [ds r]. simpl in H1.
    destruct ds as [|d ds'] eqn:Ed; [discriminate|]. rewrite <- Ed in *.
    intros H. injection H as <- _.
    apply shape_integer; auto. rewrite Ed. discriminate.
Qed.

Lemma findall_from_shape n : forall s, Forall token_shape (findall_from n s).
Proof.
  induction n as [|n IH]; intros s; simpl; [constructor|].
  destruct s as [|c s']; [constructor|].
  destruct (match_at (String c s')) as [[tok rest]|] eqn:E.
  - constructor; [eapply match_at_shape, E|apply IH].
  - apply IH.
Qed.

Lemma findall_shape s : Forall token_shape (findall s).
Proof. apply findall_from_shape. Qed.

(* ------------------------------------------------------------------ *)
(** ** [float] on the tokens of the scan *)

Lemma token_char_not_space c : is_token_char c = true -> negb (is_space c) = true.
Proof.
  unfold is_token_char. intros H. apply negb_true_iff.
  apply orb_true_iff in H. destruct H as [H|H].
  - apply orb_true_iff in H. destruct H as [H|H].
    + apply digit_not_space, H.
    + apply sign_cases in H. destruct H; subst; reflexivity.
  - apply Ascii.eqb_eq in H. subst. reflexivity.
Qed.

Lemma digits_token_chars s :
  all_chars is_digit s = true -> all_chars is_token_char s = true.
Proof.
  apply all_chars_weaken. intros c H. unfold is_token_char. rewrite H. reflexivity.
Qed.

Lemma token_chars tok : token_shape tok -> all_chars is_token_char tok = true.
Proof.
  intros [sg ds fs Hsg Hds Hfs _|ds Hds _].
  - rewrite !all_chars_app. cbn [all_chars].
    rewrite (digits_token_chars _ Hds), (digits_token_chars _ Hfs).
    destruct Hsg as [->|[->| ->]]; reflexivity.
  - apply digits_token_chars, Hds.
Qed.

Lemma strip_token tok : token_shape tok -> strip tok = tok.
Proof.
  intros H. apply strip_no_space.
  eapply all_chars_weaken; [|apply token_chars, H].
  apply token_char_not_space.
Qed.

Lemma read_sign_digits ds rest :
  all_chars is_digit ds = true ->
  read_sign (ds ++ String "." rest) = (false, (ds ++ String "." rest)%string).
Proof.
  destruct ds as [|d ds]; [reflexivity|]. simpl. intros H.
  apply andb_true_iff in H. destruct H as [H _].
  rewrite (digit_not_char d "-" eq_refl H), (digit_not_char d "+" eq_refl H).
  reflexivity.
Qed.

Lemma read_sign_integer ds :
  all_chars is_digit ds = true -> read_sign ds = (false, ds).
Proof.
  destruct ds as [|d ds]; [reflexivity|]. simpl. intros H.
  apply andb_true_iff in H. destruct H as [H _].
  rewrite (digit_not_char d "-" eq_refl H), (digit_not_char d "+" eq_refl H).
  reflexivity.
Qed.

(** After the sign: digits, the point and at least one more digit. *)
Lemma read_number_decimal s neg ds fs :
  read_sign s = (neg, (ds ++ String "." fs)%string) ->
  all_chars is_digit ds = true ->
  all_chars is_digit fs = true ->
  fs <> "" ->
  exists x, read_number s = Some (x, "") /\ F64.is_nan x = false.
Proof.
  intros Hs Hds Hfs Hne. unfold read_number. rewrite Hs.
  rewrite (span_exact is_digit ds (String "." fs) Hds eq_refl).
  cbn [read_point]. rewrite Ascii.eqb_refl.
  rewrite (span_whole is_digit fs Hfs).
  destruct (String.length ds + String.length fs) eqn:El.
  - destruct fs; [congruence|simpl in El; lia].
  - cbn [read_exponent]. eexists. split; [reflexivity|apply of_decimal_not_nan].
Qed.

Lemma read_number_integer ds :
  all_chars is_digit ds = true ->
  ds <> "" ->
  exists x, read_number ds = Some (x, "") /\ F64.is_nan x = false.
Proof.
  intros Hds Hne. unfold read_number. rewrite (read_sign_integer ds Hds).
  rewrite (span_whole is_digit ds Hds).
  cbn [read_point String.length].
  destruct (String.length ds + 0) eqn:El.
  - destruct ds; [congruence|simpl in El; lia].
  - cbn [read_exponent]. eexists. split; [reflexivity|apply of_decimal_not_nan].
Qed.

(** [float] accepts every token, and never as a NaN. *)
Lemma py_float_token tok :
  token_shape tok -> exists x, py_float tok = Some x /\ F64.is_nan x = false.
Proof.
  intros H. unfold py_float. rewrite (strip_token tok H).
  destruct H as [sg ds fs Hsg Hds Hfs Hne|ds Hds Hne].
  - destruct (read_number_decimal (sg ++ ds ++ String "." fs) 
                (if String.eqb sg "-" then true else false) ds fs) as (x & Hx & Hn); auto.
    { destruct Hsg as [->|[->| ->]]; try reflexivity.
      apply read_sign_digits, Hds. }
    exists x. rewrite Hx. auto.
  - destruct (read_number_integer ds Hds Hne) as (x & Hx & Hn).
    exists x. rewrite Hx. auto.
Qed.

(* ------------------------------------------------------------------ *)
(** ** [extract_coords] *)

Lemma extract_coords_missing : extract_coords None = (None, None).
Proof. reflexivity. Qed.

Lemma extract_coords_blank s :
  strip s = "" -> extract_coords (Some s) = (None, None).
Proof. intros H. unfold extract_coords. rewrite H. reflexivity. Qed.

Lemma extract_coords_few s :
  List.length (findall s) < 2 -> extract_coords (Some s) = (None, None).
Proof.
  intros H. unfold extract_coords.
  destruct (String.eqb (strip s) ""); [reflexivity|].
  destruct (findall s) as [|c0 [|c1 rest]]; try reflexivity.
  simpl in H. lia.
Qed.

Lemma extract_coords_two s c0 c1 rest :
  findall s = c0 :: c1 :: rest ->
  exists lat lon,
    py_float c1 = Some lat /\ py_float c0 = Some lon /\
    F64.is_nan lat = false /\ F64.is_nan lon = false /\
    extract_coords (Some s) = (Some lat, Some lon).
Proof.
  intros H. unfold extract_coords.
  destruct (String.eqb_spec (strip s) "") as [E|_].
  - apply strip_empty_all_space, findall_blank in E. congruence.
  - rewrite H.
    pose proof (findall_shape s) as Hs. rewrite H in Hs.
    inversion Hs as [|? ? H0 Hs']; subst. inversion Hs' as [|? ? H1 _]; subst.
    destruct (py_float_token c0 H0) as (lon & Hlon & Nlon).
    destruct (py_float_token c1 H1) as (lat & Hlat & Nlat).
    exists lat, lon. rewrite Hlat, Hlon. auto.
Qed.

(** The result is never partial, and a coordinate that is present is a
    number. *)
Lemma extract_coords_both p :
  extract_coords p = (None, None) \/
  exists lat lon, extract_coords p = (Some lat, Some lon) /\
                  F64.is_nan lat = false /\ F64.is_nan lon = false.
Proof.
  destruct p as [s|]; [|left; reflexivity].
  destruct (findall s) as [|c0 [|c1 rest]] eqn:E.
  - left. apply extract_coords_few. rewrite E. simpl. lia.
  - left. apply extract_coords_few. rewrite E. simpl. lia.
  - right. destruct (extract_coords_two s c0 c1 rest E) as (lat & lon & _ & _ & H1 & H2 & H3).
    exists lat, lon. auto.
Qed.

(* ------------------------------------------------------------------ *)
(** ** The numeric parser and the decimal point *)

Lemma lower_point c : Ascii.eqb (lower c) "." = Ascii.eqb c ".".
Proof. destruct c as [[] [] [] [] [] [] [] []]; reflexivity. Qed.

Lemma count_point_lowercase s :
  count_char "." (lowercase s) = count_char "." s.
Proof.
  induction s as [|c s IH]; simpl; [reflexivity|].
  rewrite lower_point, IH. reflexivity.
Qed.

Lemma count_point_read_sign s :
  count_char "." (snd (read_sign s)) = count_char "." s.
Proof.
  destruct s as [|c s]; [reflexivity|]. simpl.
  destruct (Ascii.eqb_spec c "-") as [->|]; [reflexivity|].
  destruct (Ascii.eqb_spec c "+") as [->|]; reflexivity.
Qed.

Lemma count_point_read_point s :
  count_char "." s <= 1 + count_char "." (snd (read_point s)).
Proof.
  destruct s as [|c s]; [simpl; lia|]. simpl.
  destruct (Ascii.eqb c ".").
  - rewrite (count_char_span is_digit "." s eq_refl). lia.
  - simpl. lia.
Qed.

Lemma count_point_read_exponent s :
  count_char "." (snd (read_exponent s)) = count_char "." s.
Proof.
  destruct s as [|c s]; [reflexivity|]. cbn [read_exponent].
  destruct (Ascii.eqb (lower c) ".") eqn:Ep.
  - apply Ascii.eqb_eq in Ep. rewrite Ep. reflexivity.
  - destruct (Ascii.eqb (lower c) "e"); [|reflexivity].
    pose proof (count_point_read_sign s) as H1.
    destruct (read_sign s) as [neg s1]. simpl in H1.
    pose proof (count_char_span is_digit "." s1 eq_refl) as H2.
    destruct (span is_digit s1) as [ds s2]. simpl in H2.
    destruct ds; [reflexivity|].
    cbn [snd]. rewrite H2, H1. simpl.
    rewrite lower_point in Ep. rewrite Ep. reflexivity.
Qed.

(** A number has at most one point. *)
Lemma count_point_read_number s x rest :
  read_number s = Some (x, rest) ->
  count_char "." s <= 1 + count_char "." rest.
Proof.
  unfold read_number.
  pose proof (count_point_read_sign s) as H1.
  destruct (read_sign s) as [neg s1]. simpl in H1.
  pose proof (count_char_span is_digit "." s1 eq_refl) as H2.
  destruct (span is_digit s1) as [ip s2]. simpl in H2.
  pose proof (count_point_read_point s2) as H3.
  destruct (read_point s2) as [fp s3]. simpl in H3.
  destruct (String.length ip + String.length fp); [discriminate|].
  pose proof (count_point_read_exponent s3) as H4.
  destruct (read_exponent s3) as [ex s4]. simpl in H4.
  intros H. injection H as _ <-. lia.
Qed.

Lemma to_double_one_point s x :
  to_double s = Some x -> count_char "." s <= 1.
Proof.
  unfold to_double, drop_while.
  pose proof (count_char_span is_space_c "." s eq_refl) as H1.
  destruct (read_number (snd (span is_space_c s))) as [[y rest]|] eqn:E; [|discriminate].
  apply count_point_read_number in E.
  pose proof (count_char_span is_space_c "." rest eq_refl) as H2.
  destruct (snd (span is_space_c rest)); [|discriminate].
  simpl in H2. intros _. lia.
Qed.

Lemma floatify_one_point s x :
  floatify s = Some x -> count_char "." s <= 1.
Proof.
  unfold floatify. destruct (to_double s) as [y|] eqn:E.
  - intros _. eapply to_double_one_point, E.
  - pose proof (count_point_read_sign s) as H1.
    destruct (read_sign s) as [neg body]. simpl in H1.
    rewrite <- H1, <- count_point_lowercase.
    destruct (String.eqb_spec (lowercase body) "inf") as [->|_]; [simpl; lia|].
    destruct (String.eqb_spec (lowercase body) "infinity") as [->|_]; [simpl; lia|].
    discriminate.
Qed.

(** Text with two points or more is not a number. *)
Lemma to_numeric_two_points s :
  2 <= count_char "." s -> to_numeric_str s = F64.nan.
Proof.
  intros H. unfold to_numeric_str.
  destruct (floatify s) as [x|] eqn:E; [|reflexivity].
  apply floatify_one_point in E. lia.
Qed.

(* ------------------------------------------------------------------ *)
(** ** Columns of a frame *)

Lemma get_set_same name c df : get name (set_column name c df) = Some c.
Proof.
  induction df as [|[n c'] df IH]; simpl.
  - rewrite String.eqb_refl. reflexivity.
  - destruct (String.eqb n name) eqn:E; simpl; rewrite E; auto.
Qed.

Lemma get_set_other name n c df :
  n <> name -> get n (set_column name c df) = get n df.
Proof.
  intros Hn. induction df as [|[m c'] df IH]; simpl.
  - destruct (String.eqb_spec name n); congruence.
  - destruct (String.eqb_spec m name) as [->|]; simpl.
    + destruct (String.eqb_spec name n); congruence.
    + rewrite IH. reflexivity.
Qed.

Lemma columns_set name c df :
  columns (set_column name c df) =
  columns df ++ match get name df with Some _ => [] | None => [name] end.
Proof.
  unfold columns. induction df as [|[n c'] df IH]; simpl; [reflexivity|].
  destruct (String.eqb n name) eqn:E; simpl.
  - rewrite app_nil_r. reflexivity.
  - rewrite IH. reflexivity.
Qed.

Lemma nth_error_set name c df i n c' :
  nth_error df i = Some (n, c') -> n <> name ->
  nth_error (set_column name c df) i = Some (n, c').
Proof.
  revert i. induction df as [|[m d] df IH]; intros i H Hn.
  - destruct i; discriminate.
  - simpl. destruct (String.eqb_spec m name) as [->|Hm].
    + destruct i; simpl in *; [congruence|exact H].
    + destruct i; simpl in *; [exact H|apply IH; assumption].
Qed.

Lemma get_clean_column_same col df :
  get col (clean_column df col) = option_map coerce_column (get col df).
Proof.
  unfold clean_column. destruct (get col df) as [c|] eqn:E; simpl.
  - apply get_set_same.
  - exact E.
Qed.

Lemma get_clean_column_other col n df :
  n <> col -> get n (clean_column df col) = get n df.
Proof.
  intros H. unfold clean_column. destruct (get col df); [|reflexivity].
  apply get_set_other, H.
Qed.

Lemma columns_clean_column col df : columns (clean_column df col) = columns df.
Proof.
  unfold clean_column. destruct (get col df) eqn:E; [|reflexivity].
  rewrite columns_set, E. apply app_nil_r.
Qed.

Lemma nth_error_clean_column col df i n c :
  nth_error df i = Some (n, c) -> n <> col ->
  nth_error (clean_column df col) i = Some (n, c).
Proof.
  intros H Hn. unfold clean_column. destruct (get col df); [|exact H].
  apply nth_error_set; assumption.
Qed.

(** The loop gives each of its three columns its coerced cells, and
    leaves every other name alone. *)
Lemma get_clean_numeric_in n df :
  In n numeric_columns ->
  get n (clean_numeric df) = option_map coerce_column (get n df).
Proof.
  unfold clean_numeric, numeric_columns. cbn [fold_left].
  intros [<-|[<-|[<-|[]]]].
  - rewrite !get_clean_column_other by discriminate. apply get_clean_column_same.
  - rewrite get_clean_column_other by discriminate.
    rewrite get_clean_column_same.
    rewrite get_clean_column_other by discriminate. reflexivity.
  - rewrite get_clean_column_same.
    rewrite !get_clean_column_other by discriminate. reflexivity.
Qed.

Lemma get_clean_numeric_out n df :
  ~ In n numeric_columns -> get n (clean_numeric df) = get n df.
Proof.
  unfold clean_numeric, numeric_columns. cbn [fold_left]. intros H.
  rewrite !get_clean_column_other; [reflexivity| | |];
    intros ->; apply H; simpl; auto.
Qed.

Lemma columns_clean_numeric df : columns (clean_numeric df) = columns df.
Proof.
  unfold clean_numeric, numeric_columns. cbn [fold_left].
  rewrite !columns_clean_column. reflexivity.
Qed.

Lemma nth_error_clean_numeric df i n c :
  nth_error df i = Some (n, c) -> ~ In n numeric_columns ->
  nth_error (clean_numeric df) i = Some (n, c).
Proof.
  unfold clean_numeric, numeric_columns. cbn [fold_left]. intros H Hn.
  repeat apply nth_error_clean_column; try exact H;
    intros ->; apply Hn; simpl; auto.
Qed.

Lemma coerce_column_text xs :
  coerce_column (ObjCol xs) =
  NumCol (map (fun x => coerce_text (astype_str x)) xs).
Proof.
  unfold coerce_column, replace_commas, to_numeric. rewrite map_map. reflexivity.
Qed.

Lemma coerce_column_numeric xs : coerce_column (NumCol xs) = NumCol xs.
Proof. reflexivity. Qed.

(* ------------------------------------------------------------------ *)
(** ** The cleaning of a frame *)

Lemma get_geolocation_clean_numeric df :
  get "Geolocation" (clean_numeric df) = get "Geolocation" df.
Proof.
  apply get_clean_numeric_out. unfold numeric_columns. simpl.
  intros [H|[H|[H|[]]]]; discriminate.
Qed.

(** The cleaning either stops on a frame that has the Geolocation column
    and no row, or it returns the frame of the loop with the two
    coordinate columns set. *)
Lemma clean_cases df :
  match get "Geolocation" df with
  | None => clean df = Ok (clean_numeric df)
  | Some g =>
      if col_length g =? 0
      then clean df = Raise "Columns must be same length as key"
      else clean df =
           Ok (set_column "lon" (lon_of g)
                 (set_column "lat" (lat_of g) (clean_numeric df)))
  end.
Proof.
  unfold clean, add_coords. rewrite get_geolocation_clean_numeric.
  destruct (get "Geolocation" df) as [g|]; [|reflexivity].
  unfold lat_of, lon_of. rewrite !map_map.
  assert (Hl : List.length (labels g) = col_length g)
    by (destruct g; simpl; [apply length_map|reflexivity]).
  destruct (labels g) as [|x xs]; simpl in Hl; rewrite <- Hl; reflexivity.
Qed.

Lemma clean_ok_inv df df' :
  clean df = Ok df' ->
  match get "Geolocation" df with
  | None => df' = clean_numeric df
  | Some g =>
      col_length g <> 0 /\
      df' = set_column "lon" (lon_of g)
              (set_column "lat" (lat_of g) (clean_numeric df))
  end.
Proof.
  intros H. pose proof (clean_cases df) as C.
  destruct (get "Geolocation" df) as [g|].
  - destruct (Nat.eqb_spec (col_length g) 0); [congruence|].
    split; [assumption|congruence].
  - congruence.
Qed.

Lemma get_clean_other df df' n :
  clean df = Ok df' -> n <> "lat" -> n <> "lon" ->
  get n df' = get n (clean_numeric df).
Proof.
  intros H H1 H2. apply clean_ok_inv in H.
  destruct (get "Geolocation" df) as [g|].
  - destruct H as [_ ->]. rewrite !get_set_other by assumption. reflexivity.
  - subst. reflexivity.
Qed.

Lemma numeric_name_not_coord n :
  In n numeric_columns -> n <> "lat" /\ n <> "lon".
Proof.
  unfold numeric_columns. simpl.
  intros [<-|[<-|[<-|[]]]]; split; discriminate.
Qed.

Lemma Forall2_map_same {A B C : Type} (P : B -> C -> Prop) (f : A -> B) (g : A -> C) l :
  (forall x, P (f x) (g x)) -> Forall2 P (map f l) (map g l).
Proof. intros H. induction l; simpl; constructor; auto. Qed.

Lemma coords_nan_together x :
  F64.is_nan (of_opt (fst (extract_coords x))) =
  F64.is_nan (of_opt (snd (extract_coords x))).
Proof.
  destruct (extract_coords_both x) as [->|(lat & lon & -> & H1 & H2)]; simpl.
  - reflexivity.
  - congruence.
Qed.

Lemma coerce_column_length c : col_length (coerce_column c) = col_length c.
Proof.
  destruct c as [xs|xs]; [reflexivity|].
  rewrite coerce_column_text. simpl. apply length_map.
Qed.

Lemma columns_clean df df' :
  clean df = Ok df' -> columns df' = columns df ++ appended df.
Proof.
  intros H. apply clean_ok_inv in H. unfold appended.
  destruct (get "Geolocation" df) as [g|].
  - destruct H as [_ ->].
    rewrite columns_set, get_set_other by discriminate.
    rewrite columns_set, columns_clean_numeric.
    rewrite !get_clean_numeric_out
      by (unfold numeric_columns; simpl; intros [E|[E|[E|[]]]]; discriminate).
    rewrite <- app_assoc. reflexivity.
  - subst. rewrite columns_clean_numeric, app_nil_r. reflexivity.
Qed.

Lemma nth_error_clean df df' i n c :
  clean df = Ok df' ->
  nth_error df i = Some (n, c) ->
  ~ In n (numeric_columns ++ coord_columns) ->
  nth_error df' i = Some (n, c).
Proof.
  intros H Hi Hn. apply clean_ok_inv in H.
  assert (Hnum : ~ In n numeric_columns)
    by (intros E; apply Hn, in_or_app; auto).
  assert (Hlat : n <> "lat")
    by (intros ->; apply Hn, in_or_app; right; simpl; auto).
  assert (Hlon : n <> "lon")
    by (intros ->; apply Hn, in_or_app; right; simpl; auto).
  pose proof (nth_error_clean_numeric df i n c Hi Hnum) as Hc.
  destruct (get "Geolocation" df) as [g|].
  - destruct H as [_ ->]. apply nth_error_set; [|assumption].
    apply nth_error_set; assumption.
  - subst. exact Hc.
Qed.

(* ------------------------------------------------------------------ *)
(** ** The two filters *)

Lemma select_map {A B : Type} (f : A -> B) mask xs :
  select mask (map f xs) = map f (select mask xs).
Proof.
  revert xs. induction mask as [|b mask IH]; intros [|x xs]; simpl; auto.
  destruct b; simpl; rewrite IH; reflexivity.
Qed.

(** Selecting twice is selecting once with the conjunction; the second
    mask is read on the rows the first one kept. *)
Lemma select_select {A B : Type} (m1 : list bool) (m2 : list B)
    (p : B -> bool) (xs : list A) :
  select (map p (select m1 m2)) (select m1 xs) =
  select (mask_and m1 (map p m2)) xs.
Proof.
  revert m2 xs. induction m1 as [|a m1 IH]; intros m2 xs.
  - destruct m2, xs; reflexivity.
  - destruct m2 as [|b m2], xs as [|x xs]; simpl.
    + reflexivity.
    + reflexivity.
    + destruct a; simpl; [|].
      * destruct (map p (select m1 m2)); reflexivity.
      * destruct (map p (select m1 m2)); reflexivity.
    + destruct a; simpl.
      * rewrite IH. reflexivity.
      * apply IH.
Qed.

Lemma labels_col_select mask c :
  labels (col_select mask c) = select mask (labels c).
Proof. destruct c; simpl; [symmetry; apply select_map|reflexivity]. Qed.

Lemma get_loc n mask df :
  get n (loc mask df) = option_map (col_select mask) (get n df).
Proof.
  induction df as [|[m c] df IH]; simpl; [reflexivity|].
  destruct (String.eqb m n); [reflexivity|exact IH].
Qed.

Lemma loc_loc m1 (ls : list (option string)) p df :
  loc (map p (select m1 ls)) (loc m1 df) = loc (mask_and m1 (map p ls)) df.
Proof.
  unfold loc. rewrite map_map. apply map_ext. intros [n c]. simpl. f_equal.
  destruct c; simpl; f_equal; apply select_select.
Qed.

Lemma filter_fusion T tema edad estados :
  and_then (df_mapa T tema edad) (fun mapa => df_filtered mapa estados) =
  select_conjunction T tema edad estados.
Proof.
  unfold df_mapa, select_conjunction.
  destruct (get "Topic" T) as [t|]; [|reflexivity].
  destruct (get "Age Group" T) as [a|]; [|reflexivity].
  simpl. unfold df_filtered. rewrite get_loc.
  destruct (get "LocationDesc" T) as [l|]; [|reflexivity].
  simpl. f_equal. unfold isin. rewrite labels_col_select.
  apply loc_loc.
Qed.

(* ------------------------------------------------------------------ *)
(** ** The order of the keys *)

Lemma compare_refl s : String.compare s s = Eq.
Proof. apply String_as_OT.cmp_eq. reflexivity. Qed.

Lemma compare_lt_trans a b c :
  String.compare a b = Lt -> String.compare b c = Lt -> String.compare a c = Lt.
Proof.
  intros H1 H2. apply String_as_OT.cmp_lt.
  apply String_as_OT.lt_trans with b; apply String_as_OT.cmp_lt; assumption.
Qed.

Lemma key_compare_eq a b : key_compare a b = Eq <-> a = b.
Proof.
  destruct a as [a1 a2], b as [b1 b2]. unfold key_compare. simpl. split.
  - destruct (String.compare a1 b1) eqn:E; try discriminate.
    intros H. apply String_as_OT.cmp_eq in E, H. congruence.
  - intros H. injection H as -> ->. rewrite !compare_refl. reflexivity.
Qed.

Lemma key_compare_antisym a b : key_compare a b = CompOpp (key_compare b a).
Proof.
  destruct a as [a1 a2], b as [b1 b2]. unfold key_compare. simpl.
  rewrite (String.compare_antisym a1 b1).
  destruct (String.compare b1 a1); simpl; auto.
  apply String.compare_antisym.
Qed.

Lemma key_lt_irrefl a : ~ key_lt a a.
Proof.
  unfold key_lt. rewrite (proj2 (key_compare_eq a a) eq_refl). discriminate.
Qed.

Lemma key_lt_trans a b c : key_lt a b -> key_lt b c -> key_lt a c.
Proof.
  destruct a as [a1 a2], b as [b1 b2], c as [c1 c2].
  unfold key_lt, key_compare. simpl.
  destruct (String.compare a1 b1) eqn:E1; try discriminate;
    destruct (String.compare b1 c1) eqn:E2; try discriminate; intros H1 H2.
  - apply String_as_OT.cmp_eq in E1, E2. subst.
    rewrite compare_refl. eapply compare_lt_trans; eassumption.
  - apply String_as_OT.cmp_eq in E1. subst. rewrite E2. reflexivity.
  - apply String_as_OT.cmp_eq in E2. subst. rewrite E1. reflexivity.
  - rewrite (compare_lt_trans _ _ _ E1 E2). reflexivity.
Qed.

Lemma key_eqb_eq a b : key_eqb a b = true <-> a = b.
Proof.
  destruct a as [a1 a2], b as [b1 b2]. unfold key_eqb. simpl.
  rewrite andb_true_iff, !String.eqb_eq. split.
  - intros [-> ->]. reflexivity.
  - intros H. injection H as -> ->. auto.
Qed.

Lemma in_insert_key x k l : In x (insert_key k l) <-> x = k \/ In x l.
Proof.
  induction l as [|h t IH]; simpl.
  - intuition.
  - destruct (key_compare k h) eqn:E; simpl.
    + apply key_compare_eq in E. subst. intuition.
    + intuition.
    + rewrite IH. intuition.
Qed.

Lemma insert_key_sorted k l :
  StronglySorted key_lt l -> StronglySorted key_lt (insert_key k l).
Proof.
  induction 1 as [|h t Hs IH Hh]; simpl.
  - repeat constructor.
  - destruct (key_compare k h) eqn:E.
    + constructor; assumption.
    + constructor; [constructor; assumption|].
      constructor; [exact E|].
      eapply Forall_impl; [|exact Hh]. intros x Hx.
      eapply key_lt_trans; eassumption.
    + constructor; [exact IH|].
      apply Forall_forall. intros x Hx. apply in_insert_key in Hx.
      destruct Hx as [->|Hx].
      * unfold key_lt. rewrite key_compare_antisym, E. reflexivity.
      * rewrite Forall_forall in Hh. apply Hh, Hx.
Qed.

Lemma fold_insert_sorted ks : StronglySorted key_lt (fold_right insert_key [] ks).
Proof.
  induction ks; simpl; [constructor|apply insert_key_sorted; assumption].
Qed.

Lemma in_fold_insert x ks : In x (fold_right insert_key [] ks) <-> In x ks.
Proof.
  induction ks as [|k ks IH]; simpl; [reflexivity|].
  rewrite in_insert_key, IH. intuition.
Qed.

(** A list in strictly increasing order is determined by its elements. *)
Lemma increasing_unique l1 : forall l2,
  StronglySorted key_lt l1 -> StronglySorted key_lt l2 ->
  (forall x, In x l1 <-> In x l2) -> l1 = l2.
Proof.
  induction l1 as [|a l1 IH]; intros l2 S1 S2 H.
  - destruct l2 as [|b l2]; [reflexivity|].
    exfalso. apply (H b). left. reflexivity.
  - destruct l2 as [|b l2].
    + exfalso. apply (H a). left. reflexivity.
    + inversion S1 as [|? ? S1' F1]; subst. inversion S2 as [|? ? S2' F2]; subst.
      rewrite Forall_forall in F1, F2.
      assert (E : a = b).
      { destruct (proj1 (H a) (or_introl eq_refl)) as [E|Ha]; [auto|].
        destruct (proj2 (H b) (or_introl eq_refl)) as [E|Hb]; [auto|].
        exfalso. apply (key_lt_irrefl a).
        eapply key_lt_trans; [apply F1, Hb|apply F2, Ha]. }
      subst b. f_equal. apply IH; try assumption.
      intros x. split; intros Hx.
      * destruct (proj1 (H x) (or_intror Hx)) as [E|Hx']; [|exact Hx'].
        subst x. exfalso. apply (key_lt_irrefl a), F1, Hx.
      * destruct (proj2 (H x) (or_intror Hx)) as [E|Hx']; [|exact Hx'].
        subst x. exfalso. apply (key_lt_irrefl a), F2, Hx.
Qed.

Lemma sorted_nodup l : StronglySorted key_lt l -> NoDup l.
Proof.
  induction 1 as [|a l S IH F]; constructor; [|exact IH].
  intros Ha. rewrite Forall_forall in F. apply (key_lt_irrefl a), F, Ha.
Qed.

(* ------------------------------------------------------------------ *)
(** ** Groups *)

Lemma in_row_keys k rows :
  In k (row_keys rows) <-> exists r, In r rows /\ row_key r = Some k.
Proof.
  induction rows as [|r rows IH]; simpl.
  - split; [intros []|intros (r & [] & _)].
  - destruct (row_key r) as [k'|] eqn:E; simpl; rewrite ?IH; split.
    + intros [<-|(r' & H1 & H2)]; eauto.
    + intros (r' & [<-|H1] & H2); [left; congruence|right; eauto].
    + intros (r' & H1 & H2); eauto.
    + intros (r' & [<-|H1] & H2); [congruence|eauto].
Qed.

Lemma in_sorted_keys k rows :
  In k (sorted_keys rows) <-> exists r, In r rows /\ row_key r = Some k.
Proof. unfold sorted_keys. rewrite in_fold_insert. apply in_row_keys. Qed.

Lemma in_group_key k r : in_group k r = true <-> row_key r = Some k.
Proof.
  unfold in_group. destruct (row_key r) as [k'|]; split; try discriminate.
  - intros H. apply key_eqb_eq in H. congruence.
  - intros H. injection H as ->. apply key_eqb_eq. reflexivity.
Qed.

(** The keys are those of the groups that have a row. *)
Lemma in_sorted_keys_filter k rows :
  In k (sorted_keys rows) <-> filter (in_group k) rows <> [].
Proof.
  rewrite in_sorted_keys. split.
  - intros (r & Hr & Hk) E.
    assert (In r (filter (in_group k) rows))
      by (apply filter_In; split; [assumption|apply in_group_key, Hk]).
    rewrite E in H. destruct H.
  - destruct (filter (in_group k) rows) as [|r l] eqn:E; [congruence|].
    intros _. assert (H : In r (filter (in_group k) rows)) by (rewrite E; left; reflexivity).
    apply filter_In in H. destruct H as [H1 H2].
    exists r. split; [assumption|apply in_group_key, H2].
Qed.

Lemma sorted_keys_ext rows rows' :
  (forall k, In k (sorted_keys rows) <-> In k (sorted_keys rows')) ->
  sorted_keys rows = sorted_keys rows'.
Proof.
  intros H. apply increasing_unique; [apply fold_insert_sorted|apply fold_insert_sorted|exact H].
Qed.

Lemma permutation_filter {A : Type} (p : A -> bool) l l' :
  Permutation l l' -> Permutation (filter p l) (filter p l').
Proof.
  induction 1 as [|x l l' _ IH|x y l|l l' l'' _ IH1 _ IH2]; simpl.
  - constructor.
  - destruct (p x); [constructor|]; exact IH.
  - destruct (p x), (p y); try apply Permutation_refl. constructor.
  - eapply Permutation_trans; eassumption.
Qed.

Lemma sorted_keys_permutation rows rows' :
  Permutation rows rows' -> sorted_keys rows = sorted_keys rows'.
Proof.
  intros P. apply sorted_keys_ext. intros k. rewrite !in_sorted_keys.
  split; intros (r & H1 & H2); exists r; split; auto.
  - eapply Permutation_in; eassumption.
  - eapply Permutation_in; [apply Permutation_sym|]; eassumption.
Qed.

Lemma map_fst_groupby_mean rows : map fst (groupby_mean rows) = sorted_keys rows.
Proof.
  unfold groupby_mean. rewrite map_map. simpl. apply map_id.
Qed.

(* ------------------------------------------------------------------ *)
(** ** The mean of a group *)

Lemma mean_fold_present vals : forall a,
  fold_left mean_step vals a = fold_left mean_step (filter present vals) a.
Proof.
  induction vals as [|v vals IH]; intros a; simpl; [reflexivity|].
  unfold present at 1. destruct (F64.is_nan v) eqn:E; simpl.
  - unfold mean_step at 2. rewrite E. apply IH.
  - apply IH.
Qed.

Lemma mean_fold_nobs vals : forall a,
  forallb present vals = true ->
  nobs (fold_left mean_step vals a) = nobs a + List.length vals.
Proof.
  induction vals as [|v vals IH]; intros a H; simpl in *; [lia|].
  apply andb_true_iff in H. destruct H as [H1 H2].
  rewrite (IH _ H2). unfold mean_step. unfold present in H1.
  apply negb_true_iff in H1. rewrite H1. simpl. lia.
Qed.

Lemma forallb_filter_same {A : Type} (p : A -> bool) l :
  forallb p (filter p l) = true.
Proof.
  induction l as [|x l IH]; simpl; [reflexivity|].
  destruct (p x) eqn:E; simpl; [rewrite E|]; exact IH.
Qed.

(** The mean is taken over the values that are not NaN: their sum over
    their number, and the NaN when there is none. *)
Lemma group_mean_spec vals :
  group_mean vals =
  match filter present vals with
  | [] => F64.nan
  | xs => F64.div (float_sum xs) (F64.of_nat (List.length xs))
  end.
Proof.
  unfold group_mean, float_sum. rewrite (mean_fold_present vals).
  pose proof (mean_fold_nobs (filter present vals) mean_init
                (forallb_filter_same present vals)) as Hn.
  simpl in Hn. rewrite Hn.
  destruct (filter present vals) as [|x xs]; reflexivity.
Qed.

Lemma group_mean_all_missing vals :
  forallb F64.is_nan vals = true -> group_mean vals = F64.nan.
Proof.
  intros H. rewrite group_mean_spec.
  replace (filter present vals) with (@nil float64); [reflexivity|].
  induction vals as [|v vals IH]; simpl in *; [reflexivity|].
  apply andb_true_iff in H. destruct H as [H1 H2].
  unfold present. rewrite H1. simpl. apply IH, H2.
Qed.

(* ------------------------------------------------------------------ *)
(** ** Rows without a key *)

Lemma row_key_missing (r : row) :
  fst (fst r) = None \/ snd (fst r) = None -> row_key r = None.
Proof.
  destruct r as [[[a|] [d|]] v]; simpl; intros [H|H]; congruence.
Qed.

Lemma row_keys_app l1 l2 : row_keys (l1 ++ l2) = row_keys l1 ++ row_keys l2.
Proof.
  induction l1 as [|r l1 IH]; simpl; [reflexivity|].
  destruct (row_key r); simpl; rewrite IH; reflexivity.
Qed.

Lemma row_keys_has_key rows : row_keys (filter has_key rows) = row_keys rows.
Proof.
  induction rows as [|r rows IH]; simpl; [reflexivity|].
  unfold has_key at 1. destruct (row_key r) eqn:E; simpl; rewrite ?E, IH; reflexivity.
Qed.

Lemma filter_group_has_key k rows :
  filter (in_group k) (filter has_key rows) = filter (in_group k) rows.
Proof.
  induction rows as [|r rows IH]; simpl; [reflexivity|].
  unfold has_key at 1, in_group at 2.
  destruct (row_key r) eqn:E; simpl.
  - unfold in_group at 1. rewrite E, IH. reflexivity.
  - exact IH.
Qed.

Lemma groupby_mean_congr rows rows' :
  row_keys rows = row_keys rows' ->
  (forall k, filter (in_group k) rows = filter (in_group k) rows') ->
  groupby_mean rows = groupby_mean rows'.
Proof.
  intros Hk Hg. unfold groupby_mean, sorted_keys, group_values. rewrite Hk.
  apply map_ext. intros k. rewrite Hg. reflexivity.
Qed.

Lemma groupby_mean_same_groups rows rows' :
  (forall k, filter (in_group k) rows = filter (in_group k) rows') ->
  groupby_mean rows = groupby_mean rows'.
Proof.
  intros Hg. unfold groupby_mean, group_values.
  replace (sorted_keys rows') with (sorted_keys rows).
  - apply map_ext. intros k. rewrite Hg. reflexivity.
  - apply sorted_keys_ext. intros k. rewrite !in_sorted_keys_filter, Hg. reflexivity.
Qed.

Lemma geo_rows_of_frame rows :
  geo_rows (map (fun r : row => fst (fst r)) rows)
           (map (fun r : row => snd (fst r)) rows)
           (map row_value rows) = rows.
Proof.
  unfold geo_rows, row_value. induction rows as [|[[a d] v] rows IH]; simpl; [reflexivity|].
  rewrite IH. reflexivity.
Qed.

Lemma df_geo_of_rows rows :
  df_geo (frame_of_rows rows) = Ok (geo_frame (groupby_mean rows)).
Proof.
  unfold df_geo, frame_of_rows. cbn [get String.eqb Ascii.eqb Bool.eqb labels].
  rewrite geo_rows_of_frame. reflexivity.
Qed.

(* ================================================================== *)
(** * The claims *)

(** C1.  [extract_coords] scans the text from left to right (at each
    place the first alternative that matches gives a token and the scan
    goes on after it); with two tokens or more it returns the float of
    the second token as latitude and the float of the first as
    longitude, whatever follows, so "POINT (-87.6298 41.8781)" gives lat
    41.8781 and lon -87.6298.  The sign belongs to the first alternative
    of the pattern only, the one with a point: in "POINT (-87 41)" the
    first token is "87", and the longitude returned is 87, not -87. *)
Theorem extract_coords_second_then_first :
  (forall s,
      findall s =
      match s with
      | EmptyString => []
      | String _ s' =>
          match match_at s with
          | Some (tok, rest) => tok :: findall rest
          | None => findall s'
          end
      end) /\
  (forall s, Forall token_shape (findall s)) /\
  (forall s c0 c1 rest,
      findall s = c0 :: c1 :: rest ->
      exists lat lon,
        py_float c1 = Some lat /\ py_float c0 = Some lon /\
        extract_coords (Some s) = (Some lat, Some lon)) /\
  findall "POINT (-87.6298 41.8781)" = ["-87.6298"; "41.8781"] /\
  extract_coords (Some "POINT (-87.6298 41.8781)") =
    (Some (F64.lit 41.8781), Some (F64.lit (-87.6298))) /\
  findall "1.5 -2.25 3 4" = ["1.5"; "-2.25"; "3"; "4"] /\
  extract_coords (Some "1.5 -2.25 3 4") =
    (Some (F64.lit (-2.25)), Some (F64.lit 1.5)) /\
  findall "POINT (-87 41)" = ["87"; "41"] /\
  extract_coords (Some "POINT (-87 41)") =
    (Some (F64.lit 41), Some (F64.lit 87)) /\
  F64.lit 87 <> F64.lit (-87).
Proof.
  split; [apply findall_unfold|].
  split; [apply findall_shape|].
  split.
  { intros s c0 c1 rest H.
    destruct (extract_coords_two s c0 c1 rest H) as (lat & lon & H1 & H2 & _ & _ & H3).
    exists lat, lon. auto. }
  repeat split; try (vm_compute; reflexivity).
  vm_compute. discriminate.
Qed.

(** C2.  The aggregate has one entry for each pair (LocationAbbr,
    LocationDesc) that a row carries, each pair once; the value of an
    entry is the mean of the Data_Value of the rows of that pair: the
    sum of the values that are not NaN over their number, and the NaN
    (not zero, no error) when all of them are NaN.  The rows (IL,
    Chicago, 10), (IL, Chicago, 20), (CA, LA, NaN) give 15.0 for (IL,
    Chicago) and the NaN for (CA, LA). *)
Theorem groupby_mean_over_present_values :
  (forall rows k,
      In k (map fst (groupby_mean rows)) <->
      exists r, In r rows /\ row_key r = Some k) /\
  (forall rows, NoDup (map fst (groupby_mean rows))) /\
  (forall rows k m,
      In (k, m) (groupby_mean rows) -> m = group_mean (group_values k rows)) /\
  (forall vals,
      group_mean vals =
      match filter present vals with
      | [] => F64.nan
      | xs => F64.div (float_sum xs) (F64.of_nat (List.length xs))
      end) /\
  (forall vals, forallb F64.is_nan vals = true -> group_mean vals = F64.nan) /\
  (forall mapa a d vals,
      get "LocationAbbr" mapa = Some a ->
      get "LocationDesc" mapa = Some d ->
      get "Data_Value" mapa = Some (NumCol vals) ->
      df_geo mapa =
      Ok (geo_frame (groupby_mean (geo_rows (labels a) (labels d) vals)))) /\
  groupby_mean scenario_rows =
    [(("CA", "LA"), F64.nan); (("IL", "Chicago"), F64.lit 15.0)] /\
  df_geo scenario_frame =
    Ok [("LocationAbbr", ObjCol [Some "CA"; Some "IL"]);
        ("LocationDesc", ObjCol [Some "LA"; Some "Chicago"]);
        ("Data_Value", NumCol [F64.nan; F64.lit 15.0])] /\
  F64.nan <> F64.zero.
Proof.
  split.
  { intros rows k. rewrite map_fst_groupby_mean. apply in_sorted_keys. }
  split.
  { intros rows. rewrite map_fst_groupby_mean.
    apply sorted_nodup, fold_insert_sorted. }
  split.
  { intros rows k m H. unfold groupby_mean in H. apply in_map_iff in H.
    destruct H as (k' & E & _). congruence. }
  split; [apply group_mean_spec|].
  split; [apply group_mean_all_missing|].
  split.
  { intros mapa a d vals Ha Hd Hv. unfold df_geo. rewrite Ha, Hd, Hv. reflexivity. }
  split; [vm_compute; reflexivity|].
  split; [vm_compute; reflexivity|].
  discriminate.
Qed.

Lemma groupby_mean_over_present_values_witness :
  group_mean [F64.nan; F64.nan] = F64.nan /\
  group_mean (group_values ("IL", "Chicago") scenario_rows) = F64.lit 15.0.
Proof.
  destruct groupby_mean_over_present_values as (_ & _ & H1 & _ & H2 & _).
  split.
  - apply H2. reflexivity.
  - symmetry. apply H1. vm_compute. auto.
Defined.

(** C3.  In each of the three numeric columns a text cell is parsed
    after every ',' has become a '.', so a text with decimal comma
    gives the float of the same text with a point ("12,5" gives 12.5);
    a text that still is no number gives the NaN, and the loop raises
    nothing: without a Geolocation column the cleaning always returns
    its frame, and [load_data] ends without an exception on every frame. *)
Theorem numeric_coercion_of_text (df : DataFrame) (col : string)
    (xs : list (option string)) :
  In col numeric_columns ->
  get col df = Some (ObjCol xs) ->
  get col (clean_numeric df) =
    Some (NumCol (map (fun x => coerce_text (astype_str x)) xs)) /\
  (forall df', clean df = Ok df' ->
     get col df' = Some (NumCol (map (fun x => coerce_text (astype_str x)) xs))) /\
  (forall s, coerce_text s = to_numeric_str (replace_char "," "." s) /\
             count_char "," (replace_char "," "." s) = 0) /\
  (forall s, coerce_text s = coerce_text (replace_char "," "." s)) /\
  coerce_text "12,5" = F64.lit 12.5 /\
  coerce_text "12.5" = F64.lit 12.5 /\
  (forall s, floatify (replace_char "," "." s) = None -> coerce_text s = F64.nan) /\
  (get "Geolocation" df = None -> clean df = Ok (clean_numeric df)) /\
  (exists calls res, load_data (ReadOk df) = (calls, Ok res)).
Proof.
  intros Hin Hget.
  assert (H1 : get col (clean_numeric df) =
               Some (NumCol (map (fun x => coerce_text (astype_str x)) xs))).
  { rewrite (get_clean_numeric_in col df Hin), Hget. simpl.
    rewrite coerce_column_text. reflexivity. }
  split; [exact H1|]. split.
  { intros df' H. destruct (numeric_name_not_coord col Hin) as [Ha Hb].
    rewrite (get_clean_other df df' col H Ha Hb). exact H1. }
  split.
  { intros s. split; [reflexivity|]. apply count_char_replaced. discriminate. }
  split.
  { intros s. unfold coerce_text. rewrite replace_char_idempotent; [reflexivity|discriminate]. }
  split; [vm_compute; reflexivity|].
  split; [vm_compute; reflexivity|].
  split.
  { intros s H. unfold coerce_text, to_numeric_str. rewrite H. reflexivity. }
  split.
  { intros H. pose proof (clean_cases df) as C. rewrite H in C. exact C. }
  unfold load_data. destruct (clean df); eexists _, _; reflexivity.
Qed.

Lemma numeric_coercion_of_text_witness :
  get "Data_Value" (clean_numeric sample) =
    Some (NumCol [F64.lit 12.5; F64.nan; F64.nan]).
Proof.
  destruct (numeric_coercion_of_text sample "Data_Value"
              [Some "12,5"; Some "1.234,5"; None]) as [H _].
  - simpl. auto.
  - reflexivity.
  - rewrite H. vm_compute. reflexivity.
Defined.

(** C4.  The membership filter applied to the result of the primary
    filter gives the frame that the conjunction of the two predicates
    selects from the table, for every table, topic, age group and list
    of locations taken from the primary result (the fusion lemma above
    shows that any list of locations does); a column that is missing
    raises the same [KeyError] on both sides. *)
Theorem filters_compose (T : DataFrame) (tema edad : option string)
    (estados : list (option string)) :
  (forall mapa, df_mapa T tema edad = Ok mapa -> incl estados (offered mapa)) ->
  and_then (df_mapa T tema edad) (fun mapa => df_filtered mapa estados) =
  select_conjunction T tema edad estados.
Proof. intros _. apply filter_fusion. Qed.

Lemma filters_compose_witness :
  and_then (df_mapa sample_cleaned (Some "Cognitive Decline") (Some "65 years or older"))
           (fun mapa => df_filtered mapa [Some "Illinois"]) =
  select_conjunction sample_cleaned (Some "Cognitive Decline")
                     (Some "65 years or older") [Some "Illinois"].
Proof.
  apply filters_compose.
  intros mapa H. vm_compute in H. injection H as <-.
  intros x [<-|[]]. vm_compute. auto.
Defined.

(** C5.  For a missing cell, a blank text or a text with fewer than two
    tokens [extract_coords] returns [None] twice; it never returns one
    coordinate without the other; and in a cleaned frame the cells of
    lat and lon are row by row both NaN or both numbers. *)
Theorem coords_all_or_nothing :
  extract_coords None = (None, None) /\
  (forall s, strip s = "" -> extract_coords (Some s) = (None, None)) /\
  (forall s, List.length (findall s) < 2 ->
             extract_coords (Some s) = (None, None)) /\
  extract_coords (Some "") = (None, None) /\
  extract_coords (Some "N/A") = (None, None) /\
  extract_coords (Some "POINT (41.8781)") = (None, None) /\
  (forall p, extract_coords p = (None, None) \/
             exists lat lon, extract_coords p = (Some lat, Some lon)) /\
  (forall df df' g,
      clean df = Ok df' ->
      get "Geolocation" df = Some g ->
      exists lats lons,
        get "lat" df' = Some (NumCol lats) /\
        get "lon" df' = Some (NumCol lons) /\
        List.length lats = col_length g /\
        Forall2 (fun la lo => F64.is_nan la = F64.is_nan lo) lats lons).
Proof.
  split; [reflexivity|].
  split; [apply extract_coords_blank|].
  split; [apply extract_coords_few|].
  split; [reflexivity|].
  split; [vm_compute; reflexivity|].
  split; [vm_compute; reflexivity|].
  split.
  { intros p. destruct (extract_coords_both p) as [H|(lat & lon & H & _)]; eauto. }
  intros df df' g H Hg. apply clean_ok_inv in H. rewrite Hg in H.
  destruct H as [_ ->].
  eexists _, _. split; [|split; [|split]].
  - rewrite get_set_other by discriminate. apply get_set_same.
  - apply get_set_same.
  - rewrite length_map. destruct g; simpl; [apply length_map|reflexivity].
  - apply Forall2_map_same. apply coords_nan_together.
Qed.

Lemma coords_all_or_nothing_witness :
  extract_coords (Some "   ") = (None, None) /\
  extract_coords (Some "lat 41") = (None, None) /\
  exists lats lons,
    get "lat" sample_cleaned = Some (NumCol lats) /\
    get "lon" sample_cleaned = Some (NumCol lons) /\
    Forall2 (fun la lo => F64.is_nan la = F64.is_nan lo) lats lons.
Proof.
  destruct coords_all_or_nothing as (_ & H1 & H2 & _ & _ & _ & _ & H3).
  split; [apply H1; reflexivity|].
  split; [apply H2; vm_compute; lia|].
  destruct (H3 sample sample_cleaned sample_geolocation eq_refl eq_refl)
    as (lats & lons & Ha & Ho & _ & F).
  exists lats, lons. auto.
Defined.

(** C6.  When the cleaning returns a frame, every column of the input
    keeps its name and its place, the names added come after them ("lat"
    and "lon", in this order, for a frame with a Geolocation column that
    had neither), a column that is neither one of the three numeric
    columns nor lat or lon is returned as it was, each numeric column is
    coerced cell by cell in place, and lat and lon hold, row by row, the
    coordinates of the Geolocation cell of that row.  The cleaning
    returns a frame for every input except one with a Geolocation column
    and no row, for which [load_data] reports an error and returns
    [None]. *)
Theorem cleaning_frame_effect :
  (forall df df',
      clean df = Ok df' ->
      columns df' = columns df ++ appended df /\
      (forall i n c,
          nth_error df i = Some (n, c) ->
          ~ In n (numeric_columns ++ coord_columns) ->
          nth_error df' i = Some (n, c)) /\
      (forall n c,
          In n numeric_columns -> get n df = Some c ->
          get n df' = Some (coerce_column c) /\
          col_length (coerce_column c) = col_length c) /\
      (forall g,
          get "Geolocation" df = Some g ->
          get "lat" df' = Some (lat_of g) /\ get "lon" df' = Some (lon_of g)) /\
      (get "Geolocation" df = None -> df' = clean_numeric df)) /\
  (forall xs, coerce_column (ObjCol xs) =
              NumCol (map (fun x => coerce_text (astype_str x)) xs)) /\
  (forall xs, coerce_column (NumCol xs) = NumCol xs) /\
  (forall df,
      (exists msg, clean df = Raise msg) <->
      (exists g, get "Geolocation" df = Some g /\ col_length g = 0)) /\
  load_data (ReadOk header_only) =
    ([St_error "Error al cargar el archivo: Columns must be same length as key"],
     Ok None).
Proof.
  split.
  { intros df df' H.
    split; [apply columns_clean, H|].
    split; [intros i n c; apply nth_error_clean, H|].
    split.
    { intros n c Hin Hget. split; [|apply coerce_column_length].
      destruct (numeric_name_not_coord n Hin) as [Ha Hb].
      rewrite (get_clean_other df df' n H Ha Hb).
      rewrite (get_clean_numeric_in n df Hin), Hget. reflexivity. }
    apply clean_ok_inv in H. split.
    { intros g Hg. rewrite Hg in H. destruct H as [_ ->]. split.
      - rewrite get_set_other by discriminate. apply get_set_same.
      - apply get_set_same. }
    intros Hg. rewrite Hg in H. exact H. }
  split; [apply coerce_column_text|].
  split; [reflexivity|].
  split.
  { intros df. pose proof (clean_cases df) as C.
    destruct (get "Geolocation" df) as [g|].
    - destruct (Nat.eqb_spec (col_length g) 0) as [E|E].
      + split; eauto.
      + split.
        * intros [msg H]. congruence.
        * intros (g' & Hg & H0). congruence.
    - split.
      + intros [msg H]. congruence.
      + intros (g' & Hg & _). discriminate. }
  reflexivity.
Qed.

Lemma cleaning_frame_effect_witness :
  columns sample_cleaned =
  ["Topic"; "Age Group"; "LocationAbbr"; "LocationDesc"; "Data_Value";
   "Low_Confidence_Limit"; "Geolocation"; "lat"; "lon"].
Proof.
  destruct cleaning_frame_effect as (H & _).
  destruct (H sample sample_cleaned eq_refl) as (Hc & _).
  rewrite Hc. reflexivity.
Defined.

(** C7, as the claim states it, fails: each pair of lists below holds
    the same three rows of one group in two orders, and the two orders
    give two means.  The percentages 72.2, 22.9, 94.5 give
    63.199999999999996 in this order and 63.20000000000001 as 22.9,
    94.5, 72.2, with the compensated sum and with a plain sum alike; the
    values 1e100, 1, -1e100 give 0 in this order and 1/3 as 1e100,
    -1e100, 1. *)
Lemma row_order_changes_mean :
  Permutation percent_rows percent_rows_permuted /\
  groupby_mean percent_rows =
    [(("IL", "Illinois"), F64.lit 63.199999999999996)] /\
  groupby_mean percent_rows_permuted =
    [(("IL", "Illinois"), F64.lit 63.20000000000001)] /\
  groupby_mean percent_rows <> groupby_mean percent_rows_permuted /\
  df_geo (frame_of_rows percent_rows) <>
    df_geo (frame_of_rows percent_rows_permuted) /\
  plain_mean (map row_value percent_rows) = F64.lit 63.199999999999996 /\
  plain_mean (map row_value percent_rows_permuted) = F64.lit 63.20000000000001 /\
  Permutation large_first large_together /\
  groupby_mean large_first = [(("IL", "Illinois"), F64.lit 0)] /\
  groupby_mean large_together =
    [(("IL", "Illinois"), F64.div (F64.lit 1) (F64.lit 3))] /\
  groupby_mean large_first <> groupby_mean large_together.
Proof.
  split.
  { exact (Permutation_cons_append
             [(Some "IL", Some "Illinois", F64.lit 22.9);
              (Some "IL", Some "Illinois", F64.lit 94.5)]
             (Some "IL", Some "Illinois", F64.lit 72.2)). }
  split; [vm_compute; reflexivity|].
  split; [vm_compute; reflexivity|].
  split; [vm_compute; discriminate|].
  split; [vm_compute; discriminate|].
  split; [vm_compute; reflexivity|].
  split; [vm_compute; reflexivity|].
  split.
  { unfold large_first, large_together. apply perm_skip, perm_swap. }
  split; [vm_compute; reflexivity|].
  split; [vm_compute; reflexivity|].
  vm_compute. discriminate.
Qed.

(** C7, amended.  Permuting the rows of a subset changes neither the
    keys of the aggregate nor their order, and each group keeps the same
    values up to their order; the aggregate itself, and the frame made
    of it, is unchanged when the rows of each group keep their relative
    order. *)
Theorem groupby_mean_row_order (rows rows' : list row) :
  Permutation rows rows' ->
  map fst (groupby_mean rows) = map fst (groupby_mean rows') /\
  (forall k, Permutation (group_values k rows) (group_values k rows')) /\
  ((forall k, filter (in_group k) rows = filter (in_group k) rows') ->
   groupby_mean rows = groupby_mean rows' /\
   df_geo (frame_of_rows rows) = df_geo (frame_of_rows rows')).
Proof.
  intros P. split.
  { rewrite !map_fst_groupby_mean. apply sorted_keys_permutation, P. }
  split.
  { intros k. apply Permutation_map, permutation_filter, P. }
  intros H. pose proof (groupby_mean_same_groups rows rows' H) as E.
  split; [exact E|]. rewrite !df_geo_of_rows, E. reflexivity.
Qed.

Lemma groupby_mean_row_order_witness :
  groupby_mean mixed_rows = groupby_mean mixed_rows_swapped.
Proof.
  destruct (groupby_mean_row_order mixed_rows mixed_rows_swapped) as (_ & _ & H).
  - apply perm_swap.
  - apply H. clear H. intros k. unfold mixed_rows, mixed_rows_swapped. cbn [filter].
    destruct (in_group k (Some "IL", Some "Illinois", F64.lit 10)) eqn:E1;
      destruct (in_group k (Some "CA", Some "California", F64.lit 5)) eqn:E2;
      try reflexivity.
    apply in_group_key in E1, E2. simpl in E1, E2. congruence.
Defined.

(** C8.  When the file cannot be read, [load_data] makes one call to
    [st.error] and returns [None]; and whenever [load_data] returns
    [None] the script reports that the dashboard could not be started
    and draws nothing of it: after the calls of the loader come that
    error and the two lines of the sidebar footer, and the script ends
    without an exception. *)
Theorem read_failure_halts :
  (forall e,
      load_data (ReadError e) =
      ([St_error ("Error al cargar el archivo: " ++ e)], Ok None)) /\
  (forall r, exists calls res, load_data r = (calls, Ok res)) /\
  (forall r calls,
      load_data r = (calls, Ok None) -> exists e, calls = [St_error e]) /\
  (forall r calls df, load_data r = (calls, Ok (Some df)) -> calls = []) /\
  (forall r u calls,
      load_data r = (calls, Ok None) ->
      main r u =
      (St_set_page_config :: calls ++
         [St_error init_error; St_sidebar_divider; St_sidebar_caption],
       Ok tt)) /\
  (forall e u,
      main (ReadError e) u =
      ([St_set_page_config;
        St_error ("Error al cargar el archivo: " ++ e);
        St_error init_error;
        St_sidebar_divider; St_sidebar_caption],
       Ok tt)).
Proof.
  assert (L : forall r,
             (exists df, load_data r = ([], Ok (Some df))) \/
             (exists e, load_data r = ([St_error e], Ok None))).
  { intros r. unfold load_data.
    destruct (match r with ReadError msg => Raise msg | ReadOk df => clean df end);
      [left|right]; eexists; reflexivity. }
  split; [reflexivity|].
  split.
  { intros r. destruct (L r) as [[df H]|[e H]]; rewrite H; eauto. }
  split.
  { intros r calls H. destruct (L r) as [[df E]|[e E]]; rewrite E in H.
    - discriminate.
    - injection H as <-. eauto. }
  split.
  { intros r calls df H. destruct (L r) as [[df' E]|[e E]]; rewrite E in H.
    - injection H as <- _. reflexivity.
    - discriminate. }
  split; [|reflexivity].
  intros r u calls H. unfold main. rewrite H.
  unfold bind, call. simpl. reflexivity.
Qed.

Lemma read_failure_halts_witness :
  main (ReadOk header_only) first_choice =
  ([St_set_page_config;
    St_error "Error al cargar el archivo: Columns must be same length as key";
    St_error init_error;
    St_sidebar_divider; St_sidebar_caption],
   Ok tt).
Proof.
  destruct read_failure_halts as (_ & _ & _ & _ & H & _).
  apply (H _ _ [St_error "Error al cargar el archivo: Columns must be same length as key"]).
  reflexivity.
Defined.

(** C9.  A comma meant as a thousands separator is read as the decimal
    point: "1,234" gives 1.234, which is neither 1234 nor the NaN.  A
    text with two or more of '.' and ',' in all gives the NaN, as the
    rewritten text has more than one point: so does "1.234,5". *)
Theorem thousands_comma_is_decimal_point :
  coerce_text "1,234" = F64.lit 1.234 /\
  coerce_text "1,234" <> F64.lit 1234 /\
  F64.is_nan (coerce_text "1,234") = false /\
  (forall s, 2 <= count_char "." s + count_char "," s ->
             coerce_text s = F64.nan) /\
  coerce_text "1.234,5" = F64.nan /\
  coerce_text "1,234,567" = F64.nan.
Proof.
  split; [vm_compute; reflexivity|].
  split; [vm_compute; discriminate|].
  split; [vm_compute; reflexivity|].
  split.
  { intros s H. unfold coerce_text. apply to_numeric_two_points.
    rewrite count_char_replace_target by discriminate. exact H. }
  split; vm_compute; reflexivity.
Qed.

Lemma thousands_comma_is_decimal_point_witness :
  coerce_text "1.234,5" = F64.nan.
Proof.
  destruct thousands_comma_is_decimal_point as (_ & _ & _ & H & _).
  apply H. vm_compute. lia.
Defined.

(** C10.  A row whose LocationAbbr or LocationDesc is missing belongs to
    no group: the rows of a group have both cells, the aggregate is that
    of the rows that have both cells, and taking a row without one of
    them out of the subset changes nothing. *)
Theorem rows_without_key_are_dropped :
  (forall (r : row) k,
      fst (fst r) = None \/ snd (fst r) = None -> in_group k r = false) /\
  (forall rows k r,
      In r (filter (in_group k) rows) ->
      fst (fst r) = Some (fst k) /\ snd (fst r) = Some (snd k)) /\
  (forall rows, groupby_mean rows = groupby_mean (filter has_key rows)) /\
  (forall rows,
      df_geo (frame_of_rows rows) = df_geo (frame_of_rows (filter has_key rows))) /\
  (forall l1 (r : row) l2,
      fst (fst r) = None \/ snd (fst r) = None ->
      groupby_mean (l1 ++ r :: l2) = groupby_mean (l1 ++ l2)) /\
  groupby_mean rows_with_gaps = [(("IL", "Illinois"), F64.lit 15)] /\
  df_geo (frame_of_rows rows_with_gaps) =
    Ok [("LocationAbbr", ObjCol [Some "IL"]);
        ("LocationDesc", ObjCol [Some "Illinois"]);
        ("Data_Value", NumCol [F64.lit 15])].
Proof.
  split.
  { intros r k H. unfold in_group. rewrite (row_key_missing r H). reflexivity. }
  split.
  { intros rows k r H. apply filter_In in H. destruct H as [_ H].
    apply in_group_key in H. destruct r as [[[a|] [d|]] v]; simpl in H; try discriminate.
    injection H as <-. auto. }
  assert (G : forall rows, groupby_mean rows = groupby_mean (filter has_key rows)).
  { intros rows. apply groupby_mean_congr.
    - symmetry. apply row_keys_has_key.
    - intros k. symmetry. apply filter_group_has_key. }
  split; [exact G|].
  split.
  { intros rows. rewrite !df_geo_of_rows, <- G. reflexivity. }
  split; [|split; vm_compute; reflexivity].
  intros l1 r l2 H. pose proof (row_key_missing r H) as E.
  apply groupby_mean_congr.
  - rewrite !row_keys_app. simpl. rewrite E. reflexivity.
  - intros k. rewrite !filter_app. simpl.
    unfold in_group at 2. rewrite E. reflexivity.
Qed.

Lemma rows_without_key_are_dropped_witness :
  groupby_mean rows_with_gaps =
  groupby_mean [(Some "IL", Some "Illinois", F64.lit 10);
                (Some "IL", None, F64.lit 2000);
                (Some "IL", Some "Illinois", F64.lit 20)].
Proof.
  destruct rows_without_key_are_dropped as (_ & _ & _ & _ & H & _).
  apply (H [(Some "IL", Some "Illinois", F64.lit 10)]
           (None, Some "Illinois", F64.lit 1000)).
  left. reflexivity.
Defined.


(* ================================================================== *)
(** * Further properties *)

(* ------------------------------------------------------------------ *)
(** ** Tokens in a text *)

Lemma digit_not_sign c : is_digit c = true -> is_sign c = false.
Proof.
  intros H. unfold is_sign.
  rewrite (digit_not_char c "+" eq_refl H), (digit_not_char c "-" eq_refl H).
  reflexivity.
Qed.

(** Nothing starts at a character that is no digit, no sign and not the
    point. *)
Lemma match_at_other c s :
  is_digit c = false -> is_sign c = false -> c <> "."%char ->
  match_at (String c s) = None.
Proof.
  intros Hd Hs Hp. unfold match_at, match_decimal, match_integer.
  rewrite Hs. simpl. rewrite Hd.
  destruct (Ascii.eqb_spec c "."); [contradiction|reflexivity].
Qed.

Lemma span_digits_then a rest :
  all_chars is_digit a = true -> ends_token rest ->
  span is_digit (a ++ rest) = (a, rest).
Proof.
  intros Ha Hr. apply span_exact; [exact Ha|].
  destruct rest; [exact I|]. apply Hr.
Qed.

Lemma match_decimal_body ds fs rest :
  all_chars is_digit ds = true ->
  all_chars is_digit fs = true ->
  fs <> "" ->
  ends_token rest ->
  match_decimal (ds ++ String "." (fs ++ rest)) =
  Some ((ds ++ String "." fs)%string, rest).
Proof.
  intros Hds Hfs Hne Hr. unfold match_decimal.
  assert (Hh : match (ds ++ String "." (fs ++ rest))%string with
               | String c s' =>
                   if is_sign c then (String c EmptyString, s')
                   else (EmptyString, (ds ++ String "." (fs ++ rest))%string)
               | EmptyString => (EmptyString, (ds ++ String "." (fs ++ rest))%string)
               end = (EmptyString, (ds ++ String "." (fs ++ rest))%string)).
  { destruct ds as [|d ds]; [reflexivity|]. simpl in *.
    apply andb_true_iff in Hds. destruct Hds as [Hd _].
    rewrite (digit_not_sign d Hd). reflexivity. }
  rewrite Hh.
  rewrite (span_exact is_digit ds (String "." (fs ++ rest)) Hds eq_refl).
  rewrite Ascii.eqb_refl, (span_digits_then fs rest Hfs Hr).
  destruct fs; [congruence|reflexivity].
Qed.

Lemma match_decimal_signed c ds fs rest :
  is_sign c = true ->
  all_chars is_digit ds = true ->
  all_chars is_digit fs = true ->
  fs <> "" ->
  ends_token rest ->
  match_decimal (String c (ds ++ String "." (fs ++ rest))) =
  Some (String c (ds ++ String "." fs), rest).
Proof.
  intros Hc Hds Hfs Hne Hr. unfold match_decimal. rewrite Hc.
  rewrite (span_exact is_digit ds (String "." (fs ++ rest)) Hds eq_refl).
  rewrite Ascii.eqb_refl, (span_digits_then fs rest Hfs Hr).
  destruct fs; [congruence|reflexivity].
Qed.

(** Digits that no point follows are no match of the first alternative,
    with a sign before them or without. *)
Lemma match_decimal_integer ds rest :
  all_chars is_digit ds = true -> ds <> "" -> ends_token rest ->
  match_decimal (ds ++ rest) = None.
Proof.
  intros Hds Hne Hr. unfold match_decimal.
  destruct ds as [|d ds']; [congruence|].
  pose proof Hds as Hds'. simpl in Hds'.
  apply andb_true_iff in Hds'. destruct Hds' as [Hd _].
  cbn [append]. rewrite (digit_not_sign d Hd).
  change (String d (ds' ++ rest)) with ((String d ds') ++ rest)%string.
  rewrite (span_digits_then _ rest Hds Hr).
  destruct rest as [|c r]; [reflexivity|].
  destruct Hr as [_ Hp]. destruct (Ascii.eqb_spec c "."); [contradiction|reflexivity].
Qed.

Lemma match_at_signed_integer c ds rest :
  is_sign c = true ->
  all_chars is_digit ds = true -> ends_token rest ->
  match_at (String c (ds ++ rest)) = None.
Proof.
  intros Hc Hds Hr.
  assert (Hd : is_digit c = false).
  { destruct (is_digit c) eqn:E; [|reflexivity].
    apply digit_not_sign in E. congruence. }
  unfold match_at, match_decimal, match_integer. rewrite Hc.
  rewrite (span_digits_then ds rest Hds Hr).
  cbn [span]. rewrite Hd.
  destruct rest as [|r rest']; [reflexivity|].
  destruct Hr as [_ Hp]. destruct (Ascii.eqb_spec r "."); [contradiction|reflexivity].
Qed.

(** A token that is followed by the end of a token is matched whole at
    its place. *)
Lemma match_at_token tok rest :
  token_shape tok -> ends_token rest ->
  match_at (tok ++ rest) = Some (tok, rest).
Proof.
  intros [sg ds fs Hsg Hds Hfs Hne|ds Hds Hne] Hr; unfold match_at.
  - rewrite !append_assoc. cbn [append]. 
    destruct Hsg as [->|[->| ->]]; cbn [append].
    + rewrite (match_decimal_body ds fs rest Hds Hfs Hne Hr). reflexivity.
    + rewrite (match_decimal_signed "+" ds fs rest eq_refl Hds Hfs Hne Hr). reflexivity.
    + rewrite (match_decimal_signed "-" ds fs rest eq_refl Hds Hfs Hne Hr). reflexivity.
  - rewrite (match_decimal_integer ds rest Hds Hne Hr).
    unfold match_integer. rewrite (span_digits_then ds rest Hds Hr).
    destruct ds; [congruence|reflexivity].
Qed.

Lemma findall_token tok rest :
  token_shape tok -> ends_token rest ->
  findall (tok ++ rest) = tok :: findall rest.
Proof.
  intros Ht Hr. rewrite findall_unfold.
  destruct (tok ++ rest)%string as [|c s'] eqn:E.
  - exfalso. destruct Ht as [sg ds fs _ _ _ Hne|ds _ Hne].
    + destruct sg, ds; discriminate.
    + destruct ds; [congruence|discriminate].
  - rewrite <- E, (match_at_token tok rest Ht Hr). reflexivity.
Qed.

Lemma findall_skip c s :
  is_digit c = false -> is_sign c = false -> c <> "."%char ->
  findall (String c s) = findall s.
Proof.
  intros Hd Hs Hp. rewrite findall_unfold, (match_at_other c s Hd Hs Hp).
  reflexivity.
Qed.

Lemma findall_point_text lon lat :
  token_shape lon -> token_shape lat ->
  findall (point_text lon lat) = [lon; lat].
Proof.
  intros Hlon Hlat. unfold point_text. cbn [append].
  do 7 (rewrite findall_skip; [|reflexivity|reflexivity|discriminate]).
  rewrite (findall_token lon); [|exact Hlon|split; [reflexivity|discriminate]].
  cbn [append]. rewrite findall_skip; [|reflexivity|reflexivity|discriminate].
  rewrite (findall_token lat); [|exact Hlat|split; [reflexivity|discriminate]].
  rewrite findall_skip; [|reflexivity|reflexivity|discriminate].
  reflexivity.
Qed.

Lemma findall_signed_integers (sa sb : ascii) a b :
  is_sign sa = true -> is_sign sb = true ->
  all_chars is_digit a = true -> a <> "" ->
  all_chars is_digit b = true -> b <> "" ->
  findall (point_text (String sa a) (String sb b)) = [a; b].
Proof.
  intros Hsa Hsb Ha Hna Hb Hnb. unfold point_text. cbn [append].
  do 7 (rewrite findall_skip; [|reflexivity|reflexivity|discriminate]).
  rewrite findall_unfold.
  rewrite (match_at_signed_integer sa a _ Hsa Ha); [|split; [reflexivity|discriminate]].
  rewrite (findall_token a); [|apply shape_integer; assumption|split; [reflexivity|discriminate]].
  cbn [append]. rewrite findall_skip; [|reflexivity|reflexivity|discriminate].
  rewrite findall_unfold.
  rewrite (match_at_signed_integer sb b _ Hsb Hb); [|split; [reflexivity|discriminate]].
  rewrite (findall_token b); [|apply shape_integer; assumption|split; [reflexivity|discriminate]].
  rewrite findall_skip; [|reflexivity|reflexivity|discriminate].
  reflexivity.
Qed.

Lemma extract_coords_of_tokens s c0 c1 rest :
  findall s = c0 :: c1 :: rest ->
  extract_coords (Some s) = (py_float c1, py_float c0).
Proof.
  intros H.
  destruct (extract_coords_two s c0 c1 rest H) as (lat & lon & H1 & H2 & _ & _ & H3).
  rewrite H1, H2. exact H3.
Qed.

(** X1.  For every longitude and latitude written as tokens of the
    pattern (digits with a point and an optional sign, or digits alone),
    the text POINT (lon lat) is read back as these two tokens, and
    [extract_coords] returns the float of the latitude text and the
    float of the longitude text. *)
Theorem point_text_is_read_back (lon lat : string) :
  token_shape lon -> token_shape lat ->
  findall (point_text lon lat) = [lon; lat] /\
  extract_coords (Some (point_text lon lat)) = (py_float lat, py_float lon) /\
  fst (extract_coords (Some (point_text lon lat))) <> None /\
  snd (extract_coords (Some (point_text lon lat))) <> None.
Proof.
  intros Hlon Hlat.
  pose proof (findall_point_text lon lat Hlon Hlat) as F.
  pose proof (extract_coords_of_tokens _ _ _ _ F) as E.
  split; [exact F|]. split; [exact E|]. rewrite E. simpl.
  destruct (py_float_token lat Hlat) as (x & -> & _).
  destruct (py_float_token lon Hlon) as (y & -> & _).
  split; discriminate.
Qed.

Lemma point_text_is_read_back_witness :
  extract_coords (Some (point_text "-86.63186" "32.84057")) =
  (py_float "32.84057", py_float "-86.63186").
Proof.
  apply (point_text_is_read_back "-86.63186" "32.84057").
  - apply (shape_decimal "-" "86" "63186"); auto. discriminate.
  - apply (shape_decimal "" "32" "84057"); auto. discriminate.
Defined.

(** X2.  A sign written before a coordinate without a point is never
    read: the text POINT (lon lat) with signed whole numbers gives the
    coordinates of the same text without the signs. *)
Theorem integer_sign_is_never_read (sa sb : ascii) (a b : string) :
  is_sign sa = true -> is_sign sb = true ->
  all_chars is_digit a = true -> a <> "" ->
  all_chars is_digit b = true -> b <> "" ->
  extract_coords (Some (point_text (String sa a) (String sb b))) =
  extract_coords (Some (point_text a b)) /\
  extract_coords (Some (point_text (String sa a) (String sb b))) =
  (py_float b, py_float a).
Proof.
  intros Hsa Hsb Ha Hna Hb Hnb.
  pose proof (findall_signed_integers sa sb a b Hsa Hsb Ha Hna Hb Hnb) as F.
  pose proof (findall_point_text a b (shape_integer a Ha Hna) (shape_integer b Hb Hnb)) as G.
  rewrite (extract_coords_of_tokens _ _ _ _ F), (extract_coords_of_tokens _ _ _ _ G).
  split; reflexivity.
Qed.

Lemma integer_sign_is_never_read_witness :
  extract_coords (Some (point_text "-87" "+41")) =
  extract_coords (Some (point_text "87" "41")).
Proof.
  apply (integer_sign_is_never_read "-" "+" "87" "41"); try reflexivity; discriminate.
Defined.

(** X3.  The latitude and the longitude stored for a cell are the NaN
    exactly when the cell is missing or its text has fewer than two
    tokens: a coordinate that [extract_coords] returns is never the NaN
    itself. *)
Theorem coordinate_nan_iff_absent (x : option string) :
  (F64.is_nan (of_opt (fst (extract_coords x))) = true <->
   match x with
   | None => True
   | Some s => List.length (findall s) < 2
   end) /\
  (F64.is_nan (of_opt (snd (extract_coords x))) = true <->
   match x with
   | None => True
   | Some s => List.length (findall s) < 2
   end).
Proof.
  assert (A : match x with
              | None => True
              | Some s => List.length (findall s) < 2
              end -> extract_coords x = (None, None)).
  { destruct x as [s|]; [apply extract_coords_few|reflexivity]. }
  assert (B : forall b, b = true \/ b = false) by (intros []; auto).
  assert (C : ~ match x with
                | None => True
                | Some s => List.length (findall s) < 2
                end ->
              exists lat lon, extract_coords x = (Some lat, Some lon) /\
                              F64.is_nan lat = false /\ F64.is_nan lon = false).
  { destruct x as [s|]; [|intros H; exfalso; apply H; exact I].
    intros H. destruct (findall s) as [|c0 [|c1 rest]] eqn:E.
    - exfalso. apply H. simpl. lia.
    - exfalso. apply H. simpl. lia.
    - destruct (extract_coords_two s c0 c1 rest E) as (lat & lon & _ & _ & H1 & H2 & H3).
      eauto. }
  split; split; intros H.
  - destruct x as [s|]; [|exact I].
    destruct (Nat.lt_ge_cases (List.length (findall s)) 2) as [L|L]; [exact L|].
    destruct C as (lat & lon & E & N1 & N2); [lia|].
    rewrite E in H. simpl in H. congruence.
  - rewrite (A H). reflexivity.
  - destruct x as [s|]; [|exact I].
    destruct (Nat.lt_ge_cases (List.length (findall s)) 2) as [L|L]; [exact L|].
    destruct C as (lat & lon & E & N1 & N2); [lia|].
    rewrite E in H. simpl in H. congruence.
  - rewrite (A H). reflexivity.
Qed.

(* ------------------------------------------------------------------ *)
(** ** The options of the widgets *)

Lemma label_lt_irrefl a : ~ label_lt a a.
Proof. unfold label_lt. rewrite compare_refl. discriminate. Qed.

Lemma in_insert_label x k l : In x (insert_label k l) <-> x = k \/ In x l.
Proof.
  induction l as [|h t IH]; simpl.
  - intuition.
  - destruct (String.compare k h) eqn:E; simpl.
    + apply String_as_OT.cmp_eq in E. subst. intuition.
    + intuition.
    + rewrite IH. intuition.
Qed.

Lemma insert_label_sorted k l :
  StronglySorted label_lt l -> StronglySorted label_lt (insert_label k l).
Proof.
  induction 1 as [|h t Hs IH Hh]; simpl.
  - repeat constructor.
  - destruct (String.compare k h) eqn:E.
    + constructor; assumption.
    + constructor; [constructor; assumption|].
      constructor; [exact E|].
      eapply Forall_impl; [|exact Hh]. intros x Hx.
      eapply compare_lt_trans; eassumption.
    + constructor; [exact IH|].
      apply Forall_forall. intros x Hx. apply in_insert_label in Hx.
      destruct Hx as [->|Hx].
      * unfold label_lt. rewrite String.compare_antisym, E. reflexivity.
      * rewrite Forall_forall in Hh. apply Hh, Hx.
Qed.

Lemma sorted_labels_sorted xs : StronglySorted label_lt (sorted_labels xs).
Proof.
  induction xs as [|[x|] xs IH]; simpl.
  - constructor.
  - apply insert_label_sorted, IH.
  - exact IH.
Qed.

Lemma in_sorted_labels x xs : In x (sorted_labels xs) <-> In (Some x) xs.
Proof.
  induction xs as [|[y|] xs IH]; simpl.
  - reflexivity.
  - rewrite in_insert_label, IH. split.
    + intros [->|H]; auto.
    + intros [H|H]; [left; congruence|auto].
  - rewrite IH. split; [auto|]. intros [H|H]; [discriminate|exact H].
Qed.

Lemma increasing_labels_unique l1 : forall l2,
  StronglySorted label_lt l1 -> StronglySorted label_lt l2 ->
  (forall x, In x l1 <-> In x l2) -> l1 = l2.
Proof.
  induction l1 as [|a l1 IH]; intros l2 S1 S2 H.
  - destruct l2 as [|b l2]; [reflexivity|].
    exfalso. apply (H b). left. reflexivity.
  - destruct l2 as [|b l2].
    + exfalso. apply (H a). left. reflexivity.
    + inversion S1 as [|? ? S1' F1]; subst. inversion S2 as [|? ? S2' F2]; subst.
      rewrite Forall_forall in F1, F2.
      assert (E : a = b).
      { destruct (proj1 (H a) (or_introl eq_refl)) as [E|Ha]; [auto|].
        destruct (proj2 (H b) (or_introl eq_refl)) as [E|Hb]; [auto|].
        exfalso. apply (label_lt_irrefl a).
        eapply compare_lt_trans; [apply F1, Hb|apply F2, Ha]. }
      subst b. f_equal. apply IH; try assumption.
      intros x. split; intros Hx.
      * destruct (proj1 (H x) (or_intror Hx)) as [E|Hx']; [|exact Hx'].
        subst x. exfalso. apply (label_lt_irrefl a), F1, Hx.
      * destruct (proj2 (H x) (or_intror Hx)) as [E|Hx']; [|exact Hx'].
        subst x. exfalso. apply (label_lt_irrefl a), F2, Hx.
Qed.

Lemma increasing_labels_nodup l : StronglySorted label_lt l -> NoDup l.
Proof.
  induction 1 as [|a l S IH F]; constructor; [|exact IH].
  intros Ha. rewrite Forall_forall in F. apply (label_lt_irrefl a), F, Ha.
Qed.

Lemma nodup_map_some (l : list string) : NoDup l -> NoDup (map Some l).
Proof.
  induction 1 as [|a l Ha _ IH]; simpl; constructor; [|exact IH].
  rewrite in_map_iff. intros (y & Hy & Hin). injection Hy as ->. contradiction.
Qed.

Lemma existsb_is_missing xs : existsb is_missing xs = true <-> In None xs.
Proof.
  rewrite existsb_exists. split.
  - intros ([x|] & H & E); [discriminate|exact H].
  - intros H. exists None. auto.
Qed.

(** X4.  The options of the topic and of the age-group selectbox are the
    labels of the column, each once, in strictly increasing order,
    without the missing marker; they depend on the set of labels only,
    not on the order or the number of the rows. *)
Theorem selectbox_options (xs : list (option string)) :
  StronglySorted label_lt (sorted_labels xs) /\
  NoDup (sorted_labels xs) /\
  (forall x, In x (sorted_labels xs) <-> In (Some x) xs) /\
  (forall ys, (forall x, In (Some x) xs <-> In (Some x) ys) ->
              sorted_labels ys = sorted_labels xs).
Proof.
  split; [apply sorted_labels_sorted|].
  split; [apply increasing_labels_nodup, sorted_labels_sorted|].
  split; [intros x; apply in_sorted_labels|].
  intros ys H. apply increasing_labels_unique; try apply sorted_labels_sorted.
  intros x. rewrite !in_sorted_labels. symmetry. apply H.
Qed.

Lemma selectbox_options_witness :
  sorted_labels [Some "b"; None; Some "a"; Some "b"] =
  sorted_labels [Some "a"; Some "b"].
Proof.
  destruct (selectbox_options [Some "a"; Some "b"]) as (_ & _ & _ & H).
  apply H. intros x. simpl. intuition; discriminate.
Defined.

Lemma sorted_unique_raises xs :
  (exists msg, sorted_unique xs = Raise msg) <->
  (In None xs /\ exists s, In (Some s) xs).
Proof.
  unfold sorted_unique.
  destruct (existsb is_missing xs) eqn:E.
  - apply existsb_is_missing in E.
    destruct (sorted_labels xs) as [|s l'] eqn:L.
    + split; [intros [msg H]; discriminate|].
      intros (_ & s & Hs). apply in_sorted_labels in Hs. rewrite L in Hs. destruct Hs.
    + split; [|eauto]. intros _. split; [exact E|].
      exists s. apply in_sorted_labels. rewrite L. left. reflexivity.
  - split; [intros [msg H]; discriminate|]. intros [H _].
    apply existsb_is_missing in H. congruence.
Qed.

Lemma sorted_unique_cells xs l :
  sorted_unique xs = Ok l -> NoDup l /\ forall x, In x l <-> In x xs.
Proof.
  unfold sorted_unique.
  destruct (existsb is_missing xs) eqn:E.
  - apply existsb_is_missing in E.
    destruct (sorted_labels xs) as [|s l'] eqn:L; [|discriminate].
    intros H. injection H as <-. split; [repeat constructor; auto|].
    intros [x|]; simpl.
    + split; [intros [H|[]]; discriminate|].
      intros H. apply in_sorted_labels in H. rewrite L in H. destruct H.
    + split; auto.
  - assert (N : ~ In None xs).
    { intros H. apply existsb_is_missing in H. congruence. }
    intros H. injection H as <-. split.
    + apply nodup_map_some, increasing_labels_nodup, sorted_labels_sorted.
    + intros [x|].
      * rewrite in_map_iff. split.
        -- intros (y & Hy & Hin). injection Hy as ->. apply in_sorted_labels, Hin.
        -- intros H. exists x. split; [reflexivity|apply in_sorted_labels, H].
      * split; [|intros H; contradiction].
        rewrite in_map_iff. intros (y & Hy & _). discriminate.
Qed.

(** X5.  The options of the multiselect, [sorted(c.unique())], raise a
    [TypeError] exactly when the column holds both a missing cell and a
    label; otherwise they are the distinct cells of the column, each
    once. *)
Theorem multiselect_options (xs : list (option string)) :
  ((exists msg, sorted_unique xs = Raise msg) <->
   (In None xs /\ exists s, In (Some s) xs)) /\
  (forall l, sorted_unique xs = Ok l ->
             NoDup l /\ forall x, In x l <-> In x xs).
Proof.
  split; [apply sorted_unique_raises|apply sorted_unique_cells].
Qed.

Lemma multiselect_options_witness :
  NoDup [Some "California"; Some "Illinois"] /\
  forall x, In x [Some "California"; Some "Illinois"] <->
            In x [Some "Illinois"; Some "California"; Some "Illinois"].
Proof.
  destruct (multiselect_options [Some "Illinois"; Some "California"; Some "Illinois"])
    as (_ & H).
  apply H. reflexivity.
Defined.

(* ------------------------------------------------------------------ *)
(** ** Cleaning twice, and the rows of the cleaned frame *)

Lemma set_column_same name c df :
  get name df = Some c -> set_column name c df = df.
Proof.
  induction df as [|[n c'] df IH]; simpl; [discriminate|].
  destruct (String.eqb n name) eqn:E.
  - intros H. injection H as ->. reflexivity.
  - intros H. rewrite (IH H). reflexivity.
Qed.

Lemma get_in name c df : get name df = Some c -> In (name, c) df.
Proof.
  induction df as [|[n c'] df IH]; simpl; [discriminate|].
  destruct (String.eqb_spec n name) as [->|_].
  - intros H. injection H as ->. left. reflexivity.
  - intros H. right. apply IH, H.
Qed.

Lemma coerce_column_numeric_result c : exists xs, coerce_column c = NumCol xs.
Proof.
  destruct c as [xs|xs].
  - exists xs. reflexivity.
  - rewrite coerce_column_text. eauto.
Qed.

Lemma clean_column_fixed df col :
  (get col df = None \/ exists xs, get col df = Some (NumCol xs)) ->
  clean_column df col = df.
Proof.
  unfold clean_column. intros [H|[xs H]]; rewrite H; [reflexivity|].
  apply set_column_same, H.
Qed.

Lemma clean_numeric_fixed df :
  (forall n, In n numeric_columns ->
             get n df = None \/ exists xs, get n df = Some (NumCol xs)) ->
  clean_numeric df = df.
Proof.
  intros H. unfold clean_numeric, numeric_columns. cbn [fold_left].
  rewrite (clean_column_fixed df "Data_Value") by (apply H; simpl; auto).
  rewrite (clean_column_fixed df "Low_Confidence_Limit") by (apply H; simpl; auto).
  apply clean_column_fixed, H. simpl. auto.
Qed.

Lemma clean_numeric_columns_numeric df n :
  In n numeric_columns ->
  get n (clean_numeric df) = None \/
  exists xs, get n (clean_numeric df) = Some (NumCol xs).
Proof.
  intros H. rewrite (get_clean_numeric_in n df H).
  destruct (get n df) as [c|]; [right|left; reflexivity].
  simpl. destruct (coerce_column_numeric_result c) as [xs ->]. eauto.
Qed.

(** X6.  Cleaning a frame that the cleaning returned gives the same
    frame again: its numeric columns are numeric already, and lat and
    lon are computed anew from the same Geolocation cells. *)
Theorem cleaning_is_idempotent (df df' : DataFrame) :
  clean df = Ok df' -> clean df' = Ok df'.
Proof.
  intros H.
  assert (Hnum : forall n, In n numeric_columns ->
                           get n df' = None \/ exists xs, get n df' = Some (NumCol xs)).
  { intros n Hn. destruct (numeric_name_not_coord n Hn) as [Ha Hb].
    rewrite (get_clean_other df df' n H Ha Hb).
    apply clean_numeric_columns_numeric, Hn. }
  pose proof (clean_numeric_fixed df' Hnum) as Hfix.
  assert (Hgeo : get "Geolocation" df' = get "Geolocation" df).
  { rewrite (get_clean_other df df' "Geolocation" H) by discriminate.
    apply get_geolocation_clean_numeric. }
  pose proof (clean_cases df') as C. rewrite Hgeo, Hfix in C.
  apply clean_ok_inv in H.
  destruct (get "Geolocation" df) as [g|].
  - destruct H as [Hlen Hdf].
    destruct (Nat.eqb_spec (col_length g) 0) as [E|_]; [contradiction|].
    rewrite C. f_equal.
    assert (Hlat : get "lat" df' = Some (lat_of g)).
    { rewrite Hdf, get_set_other by discriminate. apply get_set_same. }
    assert (Hlon : get "lon" df' = Some (lon_of g)).
    { rewrite Hdf. apply get_set_same. }
    rewrite (set_column_same "lat" _ df' Hlat). apply set_column_same, Hlon.
  - exact C.
Qed.

Lemma cleaning_is_idempotent_witness : clean sample_cleaned = Ok sample_cleaned.
Proof. apply (cleaning_is_idempotent sample). reflexivity. Defined.

Lemma forall_length_set_column n name c df :
  Forall (fun nc : string * column => col_length (snd nc) = n) df ->
  col_length c = n ->
  Forall (fun nc : string * column => col_length (snd nc) = n) (set_column name c df).
Proof.
  intros H Hc. induction H as [|[m c'] df Hm Ht IH]; simpl.
  - constructor; [exact Hc|constructor].
  - destruct (String.eqb m name); constructor; simpl; auto.
Qed.

Lemma nrows_set_column name c df :
  df <> [] -> col_length c = nrows df ->
  nrows (set_column name c df) = nrows df.
Proof.
  destruct df as [|[m c'] df]; [congruence|]. intros _ Hc. simpl in *.
  destruct (String.eqb m name); simpl; [exact Hc|reflexivity].
Qed.

Lemma well_formed_set_column name c df :
  well_formed df -> df <> [] -> col_length c = nrows df ->
  well_formed (set_column name c df) /\
  nrows (set_column name c df) = nrows df.
Proof.
  intros W Hne Hc. pose proof (nrows_set_column name c df Hne Hc) as Hn.
  split; [|exact Hn]. unfold well_formed. rewrite Hn.
  apply forall_length_set_column; assumption.
Qed.

Lemma well_formed_get name c df :
  well_formed df -> get name df = Some c ->
  df <> [] /\ col_length c = nrows df.
Proof.
  intros W H. split; [intros ->; discriminate|].
  unfold well_formed in W. rewrite Forall_forall in W.
  apply (W (name, c)), get_in, H.
Qed.

Lemma well_formed_clean_column df col :
  well_formed df ->
  well_formed (clean_column df col) /\ nrows (clean_column df col) = nrows df.
Proof.
  intros W. unfold clean_column. destruct (get col df) as [c|] eqn:E; [|auto].
  destruct (well_formed_get col c df W E) as [Hne Hc].
  apply well_formed_set_column; try assumption.
  rewrite coerce_column_length. exact Hc.
Qed.

Lemma well_formed_clean_numeric df :
  well_formed df ->
  well_formed (clean_numeric df) /\ nrows (clean_numeric df) = nrows df.
Proof.
  intros W. unfold clean_numeric, numeric_columns. cbn [fold_left].
  destruct (well_formed_clean_column df "Data_Value" W) as [W1 N1].
  destruct (well_formed_clean_column _ "Low_Confidence_Limit" W1) as [W2 N2].
  destruct (well_formed_clean_column _ "High_Confidence_Limit" W2) as [W3 N3].
  split; [exact W3|congruence].
Qed.

Lemma lat_of_length g : col_length (lat_of g) = col_length g.
Proof.
  unfold lat_of. simpl. rewrite length_map.
  destruct g; simpl; [apply length_map|reflexivity].
Qed.

Lemma lon_of_length g : col_length (lon_of g) = col_length g.
Proof.
  unfold lon_of. simpl. rewrite length_map.
  destruct g; simpl; [apply length_map|reflexivity].
Qed.

(** X7.  The cleaning adds and drops no row: the frame it returns for a
    frame whose columns have one length has columns of that same
    length, lat and lon included. *)
Theorem cleaning_keeps_rows (df df' : DataFrame) :
  well_formed df -> clean df = Ok df' ->
  well_formed df' /\ nrows df' = nrows df.
Proof.
  intros W H. apply clean_ok_inv in H.
  destruct (well_formed_clean_numeric df W) as [W1 N1].
  destruct (get "Geolocation" df) as [g|] eqn:G.
  - destruct H as [_ ->].
    assert (G1 : get "Geolocation" (clean_numeric df) = Some g)
      by (rewrite get_geolocation_clean_numeric; exact G).
    destruct (well_formed_get _ _ _ W1 G1) as [Hne Hg].
    destruct (well_formed_set_column "lat" (lat_of g) _ W1 Hne) as [W2 N2].
    { rewrite lat_of_length. exact Hg. }
    destruct (well_formed_set_column "lon" (lon_of g) _ W2) as [W3 N3].
    { intros E. destruct (clean_numeric df); [congruence|].
      simpl in E. destruct p. destruct (String.eqb s "lat"); discriminate. }
    { rewrite lon_of_length, N2. exact Hg. }
    split; [exact W3|congruence].
  - subst. auto.
Qed.

Lemma cleaning_keeps_rows_witness :
  well_formed sample_cleaned /\ nrows sample_cleaned = 3.
Proof.
  apply (cleaning_keeps_rows sample sample_cleaned); [|reflexivity].
  unfold well_formed, sample. repeat constructor.
Defined.

(* ------------------------------------------------------------------ *)
(** ** The rows the filters keep *)

Lemma columns_loc mask df : columns (loc mask df) = columns df.
Proof. unfold columns, loc. rewrite map_map. reflexivity. Qed.

Lemma labels_length c : List.length (labels c) = col_length c.
Proof. destruct c; simpl; [apply length_map|reflexivity]. Qed.

Lemma col_select_length mask c :
  col_length (col_select mask c) = List.length (select mask (labels c)).
Proof.
  rewrite <- labels_length, labels_col_select. reflexivity.
Qed.

Lemma select_length {A : Type} mask (xs : list A) :
  List.length mask = List.length xs ->
  List.length (select mask xs) = count_true mask.
Proof.
  unfold count_true. revert xs.
  induction mask as [|b mask IH]; intros [|x xs] H; simpl in *; try lia.
  destruct b; simpl; rewrite IH; lia.
Qed.

Lemma count_true_le mask : count_true mask <= List.length mask.
Proof. unfold count_true. apply filter_length_le. Qed.

Lemma select_left {A : Type} (p : A -> bool) m2 xs :
  Forall (fun x => p x = true) (select (mask_and (map p xs) m2) xs).
Proof.
  revert m2. induction xs as [|x xs IH]; intros [|b m2]; simpl; try constructor.
  destruct (p x) eqn:E; simpl; [destruct b; simpl|]; try apply IH.
  constructor; [exact E|apply IH].
Qed.

Lemma select_right {A : Type} (p : A -> bool) m1 xs :
  Forall (fun x => p x = true) (select (mask_and m1 (map p xs)) xs).
Proof.
  revert m1. induction xs as [|x xs IH]; intros [|b m1]; simpl; try constructor.
  destruct b; simpl; [destruct (p x) eqn:E; simpl|]; try apply IH.
  constructor; [exact E|apply IH].
Qed.

Lemma select_map_self {A : Type} (p : A -> bool) xs :
  Forall (fun x => p x = true) (select (map p xs) xs).
Proof.
  induction xs as [|x xs IH]; simpl; [constructor|].
  destruct (p x) eqn:E; [constructor; assumption|exact IH].
Qed.

Lemma select_all_false {A : Type} mask (xs : list A) :
  Forall (fun b => b = false) mask -> select mask xs = [].
Proof.
  intros H. revert xs. induction H as [|b mask Hb _ IH]; intros [|x xs]; simpl; auto.
  subst b. apply IH.
Qed.

Lemma mask_and_false_left m1 m2 :
  Forall (fun b => b = false) m1 -> Forall (fun b => b = false) (mask_and m1 m2).
Proof.
  intros H. revert m2. induction H as [|b m1 Hb _ IH]; intros [|c m2]; simpl; constructor.
  - subst b. reflexivity.
  - apply IH.
Qed.

Lemma mask_and_length m1 m2 :
  List.length m1 = List.length m2 -> List.length (mask_and m1 m2) = List.length m1.
Proof.
  revert m2. induction m1 as [|a m1 IH]; intros [|b m2] H; simpl in *; try lia.
  rewrite IH; lia.
Qed.

Lemma loc_all_false mask df :
  Forall (fun b => b = false) mask ->
  Forall (fun nc : string * column => col_length (snd nc) = 0) (loc mask df).
Proof.
  intros H. unfold loc. apply Forall_forall. intros nc Hin.
  apply in_map_iff in Hin. destruct Hin as ([n c] & <- & _). simpl.
  rewrite col_select_length, (select_all_false mask _ H). reflexivity.
Qed.

Lemma empty_all_zero df :
  Forall (fun nc : string * column => col_length (snd nc) = 0) df -> empty df = true.
Proof.
  destruct df as [|[n c] df]; [reflexivity|]. intros H.
  inversion H as [|? ? H0 _]; subst. simpl in *. rewrite H0. reflexivity.
Qed.

Lemma well_formed_loc mask df :
  well_formed df -> List.length mask = nrows df ->
  well_formed (loc mask df) /\ (df <> [] -> nrows (loc mask df) = count_true mask).
Proof.
  intros W Hm.
  assert (A : Forall (fun nc : string * column => col_length (snd nc) = count_true mask)
                     (loc mask df)).
  { unfold loc. apply Forall_forall. intros nc Hin.
    apply in_map_iff in Hin. destruct Hin as ([n c] & <- & Hin). simpl.
    rewrite col_select_length. apply select_length.
    rewrite labels_length, Hm. symmetry.
    unfold well_formed in W. rewrite Forall_forall in W. apply (W (n, c) Hin). }
  destruct df as [|[n c] df].
  - split; [constructor|congruence].
  - assert (N : nrows (loc mask ((n, c) :: df)) = count_true mask).
    { inversion A as [|? ? H0 _]; subst. exact H0. }
    split; [|intros _; exact N]. unfold well_formed. rewrite N. exact A.
Qed.

Lemma label_is_true v x : label_is v x = true -> x <> None /\ x = v.
Proof.
  destruct x as [a|], v as [b|]; simpl; try discriminate.
  intros H. apply String.eqb_eq in H. subst. split; [discriminate|reflexivity].
Qed.

Lemma eq_mask_label_is c v : eq_mask c v = map (label_is v) (labels c).
Proof. reflexivity. Qed.

Lemma eq_mask_absent c v :
  ~ In v (labels c) \/ v = None -> Forall (fun b => b = false) (eq_mask c v).
Proof.
  intros H. rewrite eq_mask_label_is. apply Forall_forall. intros b Hb.
  apply in_map_iff in Hb. destruct Hb as (x & <- & Hx).
  destruct (label_is v x) eqn:E; [|reflexivity].
  apply label_is_true in E. destruct E as [E1 E2]. subst v.
  destruct H as [H|H]; [contradiction|congruence].
Qed.

(** X8.  The primary filter keeps every column and its place; each row
    it keeps has the chosen topic and the chosen age group, neither of
    them missing; and on a frame whose columns have one length it
    returns such a frame, with as many rows as the mask holds. *)
Theorem primary_filter_rows (df mapa : DataFrame) (tema edad : option string) :
  df_mapa df tema edad = Ok mapa ->
  columns mapa = columns df /\
  (forall t, get "Topic" mapa = Some t ->
             Forall (fun x => x <> None /\ x = tema) (labels t)) /\
  (forall a, get "Age Group" mapa = Some a ->
             Forall (fun x => x <> None /\ x = edad) (labels a)) /\
  (well_formed df ->
   well_formed mapa /\ nrows mapa <= nrows df /\
   forall t a, get "Topic" df = Some t -> get "Age Group" df = Some a ->
               nrows mapa = count_true (mask_and (eq_mask t tema) (eq_mask a edad))).
Proof.
  unfold df_mapa.
  destruct (get "Topic" df) as [t0|] eqn:Ht; [|discriminate].
  destruct (get "Age Group" df) as [a0|] eqn:Ha; [|discriminate].
  intros H. injection H as <-.
  split; [apply columns_loc|].
  split.
  { intros t H. rewrite get_loc, Ht in H. injection H as <-.
    rewrite labels_col_select, eq_mask_label_is.
    eapply Forall_impl; [|apply select_left]. intros x. apply label_is_true. }
  split.
  { intros a H. rewrite get_loc, Ha in H. injection H as <-.
    rewrite labels_col_select, (eq_mask_label_is a0).
    eapply Forall_impl; [|apply select_right]. intros x. apply label_is_true. }
  intros W.
  destruct (well_formed_get _ _ _ W Ht) as [Hne Lt].
  destruct (well_formed_get _ _ _ W Ha) as [_ La].
  assert (Lm : List.length (mask_and (eq_mask t0 tema) (eq_mask a0 edad)) = nrows df).
  { rewrite mask_and_length; unfold eq_mask; rewrite !length_map, !labels_length; congruence. }
  destruct (well_formed_loc _ df W Lm) as [W' N].
  split; [exact W'|]. rewrite (N Hne). split.
  - rewrite <- Lm. apply count_true_le.
  - intros t a E1 E2. injection E1 as <-. injection E2 as <-. reflexivity.
Qed.

Lemma primary_filter_rows_witness :
  exists mapa,
    df_mapa survey (Some "Caregiving") (Some "Overall") = Ok mapa /\
    columns mapa = columns survey /\ nrows mapa = 2.
Proof.
  eexists. split; [reflexivity|].
  destruct (primary_filter_rows survey _ (Some "Caregiving") (Some "Overall") eq_refl)
    as (C & _ & _ & W).
  split; [exact C|].
  destruct W as (_ & _ & N); [unfold well_formed, survey; repeat constructor|].
  rewrite (N _ _ eq_refl eq_refl). reflexivity.
Defined.

(** X9.  A topic or an age group that no row has, or no choice at all,
    gives a primary result without rows and with all the columns, not an
    error; the grouped frame made of it has no row either. *)
Theorem selection_without_rows (df mapa : DataFrame) (tema edad : option string)
    (t a : column) :
  get "Topic" df = Some t ->
  get "Age Group" df = Some a ->
  (~ In tema (labels t) \/ tema = None \/ ~ In edad (labels a) \/ edad = None) ->
  df_mapa df tema edad = Ok (loc (mask_and (eq_mask t tema) (eq_mask a edad)) df) /\
  (df_mapa df tema edad = Ok mapa ->
   columns mapa = columns df /\
   Forall (fun nc => col_length (snd nc) = 0) mapa /\
   empty mapa = true /\
   forall geo, df_geo mapa = Ok geo -> geo = geo_frame []).
Proof.
  intros Ht Ha Hsel. unfold df_mapa. rewrite Ht, Ha.
  split; [reflexivity|]. intros H. injection H as <-.
  assert (F : Forall (fun b => b = false) (mask_and (eq_mask t tema) (eq_mask a edad))).
  { destruct Hsel as [H|[H|H]].
    - apply mask_and_false_left, eq_mask_absent. auto.
    - apply mask_and_false_left, eq_mask_absent. auto.
    - assert (Fa : Forall (fun b => b = false) (eq_mask a edad))
        by (apply eq_mask_absent; tauto).
      clear - Fa. revert Fa. generalize (eq_mask a edad) as m2, (eq_mask t tema) as m1.
      intros m2 m1 Fa. revert m1.
      induction Fa as [|b m2 Hb _ IH]; intros [|c m1]; simpl; constructor.
      + subst b. apply andb_false_r.
      + apply IH. }
  pose proof (loc_all_false _ df F) as Z.
  split; [apply columns_loc|]. split; [exact Z|]. split; [apply empty_all_zero, Z|].
  intros geo. unfold df_geo. rewrite !get_loc.
  destruct (get "LocationAbbr" df) as [ab|]; simpl; [|discriminate].
  destruct (get "LocationDesc" df) as [de|]; simpl; [|discriminate].
  destruct (get "Data_Value" df) as [[vals|vals]|]; simpl; try discriminate.
  intros H. injection H as <-.
  rewrite labels_col_select, (select_all_false _ _ F). reflexivity.
Qed.

Lemma selection_without_rows_witness :
  df_geo (loc (mask_and (eq_mask (ObjCol [Some "Caregiving"; Some "Caregiving"; Some "Mental Health"])
                                 (Some "Cognitive Decline"))
                        (eq_mask (ObjCol [Some "Overall"; Some "Overall"; Some "Overall"])
                                 (Some "Overall"))) survey) = Ok (geo_frame []).
Proof.
  destruct (selection_without_rows survey
              (loc (mask_and (eq_mask (ObjCol [Some "Caregiving"; Some "Caregiving"; Some "Mental Health"])
                                      (Some "Cognitive Decline"))
                             (eq_mask (ObjCol [Some "Overall"; Some "Overall"; Some "Overall"])
                                      (Some "Overall"))) survey)
              (Some "Cognitive Decline") (Some "Overall")
              (ObjCol [Some "Caregiving"; Some "Caregiving"; Some "Mental Health"])
              (ObjCol [Some "Overall"; Some "Overall"; Some "Overall"])
              eq_refl eq_refl) as (_ & H).
  - left. simpl. intros [H|[H|[H|[]]]]; discriminate.
  - destruct (H eq_refl) as (_ & _ & _ & G).
    destruct (df_geo _) as [geo|msg] eqn:E.
    + rewrite (G geo eq_refl). reflexivity.
    + vm_compute in E. discriminate.
Defined.

Lemma cell_eqb_eq x y : cell_eqb x y = true <-> x = y.
Proof.
  destruct x as [a|], y as [b|]; simpl; split; try discriminate; auto.
  - intros H. apply String.eqb_eq in H. congruence.
  - intros H. injection H as ->. apply String.eqb_refl.
Qed.

Lemma isin_cell x vals : existsb (cell_eqb x) vals = true <-> In x vals.
Proof.
  rewrite existsb_exists. split.
  - intros (y & Hy & E). apply cell_eqb_eq in E. congruence.
  - intros H. exists x. split; [exact H|apply cell_eqb_eq; reflexivity].
Qed.

Lemma count_true_pos mask : In true mask -> 0 < count_true mask.
Proof.
  unfold count_true. intros H.
  assert (I : In true (filter (fun b : bool => b) mask)) by (apply filter_In; auto).
  destruct (filter (fun b : bool => b) mask); [destruct I|simpl; lia].
Qed.

(** X10.  The location filter keeps every column and its place, and each
    row it keeps has its location among the chosen ones; with no
    location chosen its result has no row; on a frame whose columns have
    one length it returns such a frame, with no more rows. *)
Theorem secondary_filter_rows (mapa filtered : DataFrame)
    (estados : list (option string)) :
  df_filtered mapa estados = Ok filtered ->
  columns filtered = columns mapa /\
  (forall l, get "LocationDesc" filtered = Some l ->
             Forall (fun x => In x estados) (labels l)) /\
  (estados = [] -> empty filtered = true) /\
  (well_formed mapa -> well_formed filtered /\ nrows filtered <= nrows mapa).
Proof.
  unfold df_filtered.
  destruct (get "LocationDesc" mapa) as [l0|] eqn:Hl; [|discriminate].
  intros H. injection H as <-.
  split; [apply columns_loc|].
  split.
  { intros l H. rewrite get_loc, Hl in H. injection H as <-.
    rewrite labels_col_select. unfold isin.
    eapply Forall_impl; [|apply select_map_self].
    intros x. apply isin_cell. }
  split.
  { intros ->. apply empty_all_zero, loc_all_false.
    unfold isin. apply Forall_forall. intros b Hb.
    apply in_map_iff in Hb. destruct Hb as (x & <- & _). reflexivity. }
  intros W. destruct (well_formed_get _ _ _ W Hl) as [Hne Ll].
  assert (Lm : List.length (isin l0 estados) = nrows mapa)
    by (unfold isin; rewrite length_map, labels_length; exact Ll).
  destruct (well_formed_loc _ mapa W Lm) as [W' N].
  split; [exact W'|]. rewrite (N Hne), <- Lm. apply count_true_le.
Qed.

Lemma secondary_filter_rows_witness :
  empty (loc (isin (ObjCol [Some "Illinois"; Some "California"; Some "Illinois"]) []) survey) = true.
Proof.
  destruct (secondary_filter_rows survey
              (loc (isin (ObjCol [Some "Illinois"; Some "California"; Some "Illinois"]) []) survey)
              [] eq_refl) as (_ & _ & H & _).
  apply H. reflexivity.
Defined.

(** X11.  With the default of the multiselect (the first five options)
    the comparison is never empty when the primary result has a row:
    the row of the first option is kept. *)
Theorem default_selection_keeps_rows (mapa : DataFrame) (desc : column)
    (options : list (option string)) :
  well_formed mapa ->
  get "LocationDesc" mapa = Some desc ->
  sorted_unique (labels desc) = Ok options ->
  0 < nrows mapa ->
  exists filtered,
    df_filtered mapa (firstn 5 options) = Ok filtered /\
    empty filtered = false /\
    List.length (firstn 5 options) <= 5.
Proof.
  intros W Hd Ho Hn. unfold df_filtered. rewrite Hd.
  eexists. split; [reflexivity|]. split; [|apply firstn_le_length].
  destruct (well_formed_get _ _ _ W Hd) as [Hne Ll].
  destruct (sorted_unique_cells _ _ Ho) as [_ Hin].
  assert (Lm : List.length (isin desc (firstn 5 options)) = nrows mapa)
    by (unfold isin; rewrite length_map, labels_length; exact Ll).
  destruct (well_formed_loc _ mapa W Lm) as [_ N].
  assert (P : 0 < count_true (isin desc (firstn 5 options))).
  { destruct options as [|o options'].
    - exfalso. destruct (labels desc) as [|x xs] eqn:E.
      + rewrite <- labels_length, E in Ll. simpl in Ll. lia.
      + apply (proj2 (Hin x)). left. reflexivity.
    - apply count_true_pos. unfold isin. apply in_map_iff.
      exists o. split.
      + apply isin_cell. left. reflexivity.
      + apply Hin. left. reflexivity. }
  destruct mapa as [|[n c] mapa']; [congruence|].
  specialize (N Hne). cbn [loc map empty]. 
  apply Nat.eqb_neq. change (nrows (loc (isin desc (firstn 5 options)) ((n, c) :: mapa')) <> 0).
  lia.
Qed.

Lemma default_selection_keeps_rows_witness :
  exists filtered,
    df_filtered survey (firstn 5 [Some "California"; Some "Illinois"]) = Ok filtered /\
    empty filtered = false /\
    List.length (firstn 5 [Some "California"; Some "Illinois"]) <= 5.
Proof.
  apply (default_selection_keeps_rows survey
           (ObjCol [Some "Illinois"; Some "California"; Some "Illinois"])).
  - unfold well_formed, survey. repeat constructor.
  - reflexivity.
  - reflexivity.
  - simpl. lia.
Defined.

(* ------------------------------------------------------------------ *)
(** ** The calls of the script *)

Lemma forall_bind {A B : Type} (P : st_call -> Prop) (m : script A) (f : A -> script B) :
  Forall P (fst m) ->
  (forall a, snd m = Ok a -> Forall P (fst (f a))) ->
  Forall P (fst (bind m f)).
Proof.
  destruct m as [calls [a|e]]; simpl; intros H1 H2; [|exact H1].
  specialize (H2 a eq_refl). destruct (f a) as [calls' r]. simpl in *.
  apply Forall_app. auto.
Qed.

Lemma forall_lift {A : Type} (P : st_call -> Prop) (r : result A) :
  Forall P (fst (lift r)).
Proof. constructor. Qed.

Lemma forall_call (P : st_call -> Prop) c : P c -> Forall P (fst (call c)).
Proof. intros H. simpl. constructor; [exact H|constructor]. Qed.

Lemma chart_calls kind needs df data :
  Forall dashboard_call (fst (chart kind needs df data)).
Proof.
  induction needs as [|n needs IH]; simpl.
  - constructor; [exact I|constructor].
  - destruct (get n df); [exact IH|constructor].
Qed.

(** The branch of the loaded frame makes no call to [st.error] and none
    of the calls of the top of the script. *)
Lemma dashboard_calls df u : Forall dashboard_call (fst (dashboard df u)).
Proof.
  unfold dashboard.
  repeat first
    [ apply forall_bind; [first [apply forall_call; exact I | apply forall_lift]|intros ? _]
    | apply forall_call; exact I ].
  apply forall_bind.
  - match goal with |- context [empty ?f] => destruct (empty f) end.
    + apply forall_call. exact I.
    + repeat first
        [ apply forall_bind; [first [apply forall_call; exact I | apply chart_calls]|intros ? _]
        | apply chart_calls ].
  - intros ? _.
    repeat first
      [ apply forall_bind; [apply forall_call; exact I|intros ? _]
      | apply forall_call; exact I ].
Qed.

Lemma load_data_cases r :
  (exists df, load_data r = ([], Ok (Some df))) \/
  (exists e, load_data r = ([St_error e], Ok None)).
Proof.
  unfold load_data.
  destruct (match r with ReadError msg => Raise msg | ReadOk df => clean df end);
    [left|right]; eexists; reflexivity.
Qed.

Lemma main_loaded r u df :
  load_data r = ([], Ok (Some df)) ->
  main r u =
  (St_set_page_config :: fst (dashboard df u) ++
     match snd (dashboard df u) with
     | Ok _ => [St_sidebar_divider; St_sidebar_caption]
     | Raise _ => []
     end,
   match snd (dashboard df u) with
   | Ok _ => Ok tt
   | Raise e => Raise e
   end).
Proof.
  intros H. unfold main. rewrite H. unfold bind, call. simpl.
  destruct (dashboard df u) as [calls [[]|e]]; simpl; [reflexivity|].
  rewrite app_nil_r. reflexivity.
Qed.

Lemma main_not_loaded r u e :
  load_data r = ([St_error e], Ok None) ->
  main r u =
  ([St_set_page_config; St_error e; St_error init_error;
    St_sidebar_divider; St_sidebar_caption], Ok tt).
Proof. intros H. unfold main. rewrite H. reflexivity. Qed.

(** X12.  The script calls [st.error] only when no frame was loaded: a
    run on a loaded frame shows no error banner, whatever the frame and
    the choices, even when the dashboard stops on an exception; and the
    footer of the sidebar is drawn exactly when the script ends without
    an exception. *)
Theorem error_banners_and_footer (r : read_result) (u : user) :
  (forall e, In (St_error e) (fst (main r u)) ->
             exists calls, load_data r = (calls, Ok None)) /\
  (In St_sidebar_caption (fst (main r u)) <-> snd (main r u) = Ok tt) /\
  hd_error (fst (main r u)) = Some St_set_page_config.
Proof.
  destruct (load_data_cases r) as [[df H]|[e H]].
  - rewrite (main_loaded r u df H).
    pose proof (dashboard_calls df u) as D. rewrite Forall_forall in D.
    cbn [fst snd]. split; [|split; [|reflexivity]].
    + intros e0 [E|I0]; [discriminate|]. exfalso.
      apply in_app_or in I0. destruct I0 as [I0|I0]; [apply (D _ I0)|].
      destruct (snd (dashboard df u)); simpl in I0; intuition; discriminate.
    + destruct (snd (dashboard df u)) as [[]|msg]; split; intros I0; try reflexivity.
      * right. apply in_or_app. right. simpl. auto.
      * exfalso. destruct I0 as [E|I0]; [discriminate|].
        rewrite app_nil_r in I0. apply (D _ I0).
      * discriminate.
  - rewrite (main_not_loaded r u e H). cbn [fst snd].
    split; [eauto|]. split; [|reflexivity].
    split; [reflexivity|]. intros _. simpl. auto 10.
Qed.




(* ------------------------------------------------------------------ *)
(** ** The grouped frame *)

Lemma combine_length_le {A B : Type} (l : list A) (l' : list B) :
  List.length (combine l l') <= List.length l.
Proof.
  revert l'. induction l as [|x l IH]; intros [|y l']; simpl; try lia.
  specialize (IH l'). lia.
Qed.

Lemma row_keys_length rows : List.length (row_keys rows) <= List.length rows.
Proof.
  induction rows as [|r rows IH]; simpl; [lia|].
  destruct (row_key r); simpl; lia.
Qed.

Lemma sorted_keys_length rows : List.length (sorted_keys rows) <= List.length rows.
Proof.
  etransitivity; [|apply row_keys_length].
  apply NoDup_incl_length.
  - apply sorted_nodup, fold_insert_sorted.
  - intros k H. apply in_fold_insert, H.
Qed.

(** X14.  The frame of the map has the three columns LocationAbbr,
    LocationDesc and Data_Value, all of one length; its rows are in
    strictly increasing order of the pair (LocationAbbr, LocationDesc),
    so no pair comes twice, and they are no more than the rows of the
    primary result. *)
Theorem grouped_frame_shape (mapa geo : DataFrame) :
  df_geo mapa = Ok geo ->
  exists g,
    geo = geo_frame g /\
    StronglySorted key_lt (map fst g) /\
    columns geo = ["LocationAbbr"; "LocationDesc"; "Data_Value"] /\
    well_formed geo /\
    nrows geo = List.length g /\
    forall a, get "LocationAbbr" mapa = Some a -> nrows geo <= col_length a.
Proof.
  unfold df_geo.
  destruct (get "LocationAbbr" mapa) as [a|]; [|discriminate].
  destruct (get "LocationDesc" mapa) as [d|]; [|discriminate].
  destruct (get "Data_Value" mapa) as [[vals|vals]|]; try discriminate.
  intros H. injection H as <-.
  exists (groupby_mean (geo_rows (labels a) (labels d) vals)).
  split; [reflexivity|].
  split; [rewrite map_fst_groupby_mean; apply fold_insert_sorted|].
  split; [reflexivity|].
  assert (N : nrows (geo_frame (groupby_mean (geo_rows (labels a) (labels d) vals))) =
              List.length (groupby_mean (geo_rows (labels a) (labels d) vals)))
    by (simpl; apply length_map).
  split.
  { unfold well_formed. rewrite N. unfold geo_frame.
    repeat constructor; simpl; apply length_map. }
  split; [exact N|].
  intros a' H. injection H as <-. rewrite N.
  unfold groupby_mean. rewrite length_map.
  etransitivity; [apply sorted_keys_length|].
  unfold geo_rows.
  etransitivity; [apply combine_length_le|].
  etransitivity; [apply combine_length_le|].
  rewrite labels_length. lia.
Qed.

Lemma grouped_frame_shape_witness :
  exists g,
    geo_frame (groupby_mean (geo_rows [Some "IL"; Some "CA"; Some "IL"]
                                      [Some "Illinois"; Some "California"; Some "Illinois"]
                                      [F64.lit 10; F64.lit 5; F64.lit 20.5])) = geo_frame g /\
    StronglySorted key_lt (map fst g).
Proof.
  destruct (grouped_frame_shape survey _ eq_refl) as (g & H1 & H2 & _).
  exists g. split; [exact H1|exact H2].
Defined.

(* ------------------------------------------------------------------ *)
(** ** The comparison of the chosen states *)

Lemma get_loc_present n mask df :
  get n df <> None <-> get n (loc mask df) <> None.
Proof. rewrite get_loc. destruct (get n df); simpl; split; congruence. Qed.


Lemma df_geo_ok_columns mapa geo :
  df_geo mapa = Ok geo ->
  get "LocationAbbr" mapa <> None /\ get "LocationDesc" mapa <> None /\
  exists vals, get "Data_Value" mapa = Some (NumCol vals).
Proof.
  unfold df_geo.
  destruct (get "LocationAbbr" mapa); [|discriminate].
  destruct (get "LocationDesc" mapa); [|discriminate].
  destruct (get "Data_Value" mapa) as [[vals|vals]|]; try discriminate.
  intros _. repeat split; try discriminate. eauto.
Qed.





(* ------------------------------------------------------------------ *)
(** ** The loaded frame under the dashboard *)

Lemma clean_numeric_dtype df df' n :
  clean df = Ok df' -> In n numeric_columns ->
  get n df' = None \/ exists xs, get n df' = Some (NumCol xs).
Proof.
  intros H Hn. destruct (numeric_name_not_coord n Hn) as [Ha Hb].
  rewrite (get_clean_other df df' n H Ha Hb).
  apply clean_numeric_columns_numeric, Hn.
Qed.

(** X16.  In the frame that [load_data] returns, the three numeric
    columns are numeric whatever the file held; so the mean per location
    of any selection of its rows never fails on text: it is computed
    exactly when the frame has the columns LocationAbbr, LocationDesc
    and Data_Value. *)
Theorem loaded_values_have_a_mean (df0 df : DataFrame) (mask : list bool) :
  clean df0 = Ok df ->
  (forall n c, In n numeric_columns -> get n df = Some c -> exists xs, c = NumCol xs) /\
  ((exists geo, df_geo (loc mask df) = Ok geo) <->
   (get "LocationAbbr" df <> None /\ get "LocationDesc" df <> None /\
    get "Data_Value" df <> None)).
Proof.
  intros H. split.
  - intros n c Hn Hc.
    destruct (clean_numeric_dtype df0 df n H Hn) as [N|[xs N]]; [congruence|].
    exists xs. congruence.
  - split.
    + intros [geo Hg]. destruct (df_geo_ok_columns _ _ Hg) as (A & D & vals & V).
      repeat split; apply (get_loc_present _ mask); congruence.
    + intros (A & D & V).
      assert (Hn : In "Data_Value" numeric_columns) by (simpl; auto).
      destruct (clean_numeric_dtype df0 df _ H Hn) as [N|[xs N]]; [contradiction|].
      unfold df_geo. rewrite !get_loc, N.
      destruct (get "LocationAbbr" df); [|contradiction].
      destruct (get "LocationDesc" df); [|contradiction].
      simpl. eauto.
Qed.

Lemma loaded_values_have_a_mean_witness :
  exists geo, df_geo (loc [true; true; false] sample_cleaned) = Ok geo.
Proof.
  apply (proj2 (loaded_values_have_a_mean sample sample_cleaned [true; true; false]
                  eq_refl)).
  repeat split; vm_compute; discriminate.
Defined.

(* ------------------------------------------------------------------ *)
(** ** Pages that end, and pages that stop *)




(** X18.  When the primary result has a row with a location name and a
    row without one, the script stops on the [TypeError] of the sort of
    the options: the map is drawn, the multiselect, the charts and the
    table are not, and the footer of the sidebar is not either. *)
Theorem missing_location_stops_the_page (df mapa geo : DataFrame) (u : user)
    (topic age desc : column) (s : string) :
  get "Topic" df = Some topic ->
  get "Age Group" df = Some age ->
  df_mapa df (pick_tema u (sorted_labels (labels topic)))
             (pick_edad u (sorted_labels (labels age))) = Ok mapa ->
  df_geo mapa = Ok geo ->
  get "LocationDesc" mapa = Some desc ->
  In None (labels desc) ->
  In (Some s) (labels desc) ->
  exists msg,
    dashboard df u =
    ([St_title; St_markdown; St_sidebar_header;
      St_selectbox "1. Selecciona el Tema:" (sorted_labels (labels topic));
      St_selectbox "2. Grupo de Edad:" (sorted_labels (labels age));
      St_tabs;
      St_subheader ("Intensidad de " ++
                    match pick_tema u (sorted_labels (labels topic)) with
                    | Some t => t
                    | None => "None"
                    end);
      St_write;
      St_plotly_chart "choropleth" geo;
      St_subheader "Filtro por Estados Específicos"],
     Raise msg) /\
    forall df0, clean df0 = Ok df ->
                snd (main (ReadOk df0) u) = Raise msg /\
                ~ In St_sidebar_caption (fst (main (ReadOk df0) u)).
Proof.
  intros Ht Ha Hm Hg Hd Hn Hs.
  destruct (proj2 (sorted_unique_raises (labels desc))) as [msg Hr]; [eauto|].
  exists msg.
  assert (E : dashboard df u =
    ([St_title; St_markdown; St_sidebar_header;
      St_selectbox "1. Selecciona el Tema:" (sorted_labels (labels topic));
      St_selectbox "2. Grupo de Edad:" (sorted_labels (labels age));
      St_tabs;
      St_subheader ("Intensidad de " ++
                    match pick_tema u (sorted_labels (labels topic)) with
                    | Some t => t
                    | None => "None"
                    end);
      St_write;
      St_plotly_chart "choropleth" geo;
      St_subheader "Filtro por Estados Específicos"],
     Raise msg)).
  { unfold dashboard, column_of.
    rewrite Ht, Ha. cbn [lift bind call app].
    rewrite Hm. cbn [lift bind call app]. rewrite Hg. cbn [lift bind call app].
    rewrite Hd. cbn [lift bind call app]. rewrite Hr. reflexivity. }
  split; [exact E|].
  intros df0 Hc.
  assert (L : load_data (ReadOk df0) = ([], Ok (Some df))).
  { unfold load_data. rewrite Hc. reflexivity. }
  rewrite (main_loaded _ u df L), E. cbn [fst snd]. split; [reflexivity|].
  rewrite app_nil_r. simpl.
  intros H. repeat (destruct H as [H|H]; [discriminate|]). exact H.
Qed.

Lemma missing_location_stops_the_page_witness :
  exists msg calls,
    dashboard survey_with_gap first_choice = (calls, Raise msg) /\
    ~ In St_sidebar_caption (fst (main (ReadOk survey_with_gap) first_choice)).
Proof.
  destruct (missing_location_stops_the_page survey_with_gap
              (loc [true; true; false] survey_with_gap)
              (geo_frame (groupby_mean (geo_rows [Some "IL"; Some "CA"]
                                                 [Some "Illinois"; None]
                                                 [F64.lit 10; F64.lit 5])))
              first_choice
              (ObjCol [Some "Caregiving"; Some "Caregiving"; Some "Mental Health"])
              (ObjCol [Some "Overall"; Some "Overall"; Some "Overall"])
              (ObjCol [Some "Illinois"; None])
              "Illinois") as (msg & E & M);
    try reflexivity; [simpl; auto..|].
  exists msg. eexists. split; [exact E|].
  apply (M survey_with_gap). reflexivity.
Defined.
